(** * Authenticated post service: tokens, post store and cache-aside read path

    A shallow embedding of the FastAPI backend (users_endpoints.py,
    posts_endpoints.py, user_utils.py, utils.py, the two SQLAlchemy models
    and the pydantic schemas) together with the properties its
    specification states about it.

    Conventions.
    - A handler is a function of the state it reads and writes (the database
      session and the Redis store), of the clock reading it would obtain, and
      of its arguments; it returns a [result] and the state after the call.
    - A raised Python exception is [Raise e].  FastAPI answers an
      [HTTPException] with its status code, a request validation error with
      422 and any other exception with 500 ([response_status]).
    - The libraries called by the code (python-jose, passlib, json, Redis, the
      SQL backend) are not part of the repository.  The signature primitive,
      the password hash, the JSON codec and the backend's enforcement of
      declared constraints are section variables; the rest of their
      behaviour that the handlers rely on is written out. *)

From stdpp Require Import gmap strings list pretty.
From Stdlib Require Import ZArith Lia Ascii.

Open Scope Z_scope.

(** ** Exceptions and results *)

Inductive exn : Type :=
| HTTPException (status_code : Z) (detail : string)
| RequestValidationError
| JWTError
| ExpiredSignatureError
| TypeError
| OverflowError
| UnicodeEncodeError
| JSONDecodeError
| DataError
| IntegrityError
| PasswordValueError.

Inductive result (A : Type) : Type :=
| Ok (a : A)
| Raise (e : exn).

Arguments Ok {A} a.
Arguments Raise {A} e.

Definition bind {A B : Type} (r : result A) (k : A → result B) : result B :=
  match r with
  | Ok a => k a
  | Raise e => Raise e
  end.

Notation "x ←! r ; k" := (bind r (λ x, k))
  (at level 20, r at level 100, k at level 200, right associativity,
   format "x  ←!  r ;  '/' k").

Definition is_Ok {A : Type} (r : result A) : bool :=
  match r with Ok _ => true | Raise _ => false end.

(** [except JWTError]: [ExpiredSignatureError] is a subclass of [JWTError]. *)
Definition isinstance_JWTError (e : exn) : bool :=
  match e with
  | JWTError | ExpiredSignatureError => true
  | _ => false
  end.

(** Status code of the HTTP response for a route declared with
    [status_code = route_status]. *)
Definition response_status {A : Type} (route_status : Z) (r : result A) : Z :=
  match r with
  | Ok _ => route_status
  | Raise (HTTPException s _) => s
  | Raise RequestValidationError => 422
  | Raise _ => 500
  end.

Definition HTTP_200_OK : Z := 200.
Definition HTTP_201_CREATED : Z := 201.
Definition HTTP_204_NO_CONTENT : Z := 204.
Definition HTTP_400_BAD_REQUEST : Z := 400.
Definition HTTP_401_UNAUTHORIZED : Z := 401.
Definition HTTP_404_NOT_FOUND : Z := 404.
Definition HTTP_413_REQUEST_ENTITY_TOO_LARGE : Z := 413.

(** ** Time

    A naive UTC [datetime] is its number of microseconds since the epoch, a
    [timedelta] a number of microseconds. *)

Definition datetime : Type := Z.
Definition timedelta : Type := Z.

Definition timedelta_minutes (m : Z) : timedelta := m * 60 * 1000000.
Definition timedelta_seconds (s : Z) : timedelta := s * 1000000.

(** [datetime.min] is 0001-01-01T00:00:00, [datetime.max] is
    9999-12-31T23:59:59.999999. *)
Definition datetime_min : datetime := -62135596800000000.
Definition datetime_max : datetime := 253402300799999999.

(** [d + delta], which raises [OverflowError] outside the datetime range. *)
Definition datetime_add (d : datetime) (delta : timedelta) : result datetime :=
  let r := d + delta in
  if (datetime_min <=? r) && (r <=? datetime_max) then Ok r
  else Raise OverflowError.

(** [timegm(d.utctimetuple())]: whole seconds, the microseconds dropped. *)
Definition timegm_utctimetuple (d : datetime) : Z := d `div` 1000000.

(** ** Python strings and their UTF-8 encoding

    Post texts are sequences of code points, since the code measures them
    both in characters (the schema) and in UTF-8 bytes (the handler). *)

Definition pystr : Type := list N.

Definition py_len {A : Type} (s : list A) : Z := Z.of_nat (length s).

Definition is_surrogate (c : N) : bool :=
  ((0xD800 <=? c) && (c <=? 0xDFFF))%N.

(** The UTF-8 bytes of one code point; lone surrogates cannot be encoded. *)
Definition encode_char (c : N) : result (list N) :=
  if (c <? 0x80)%N then Ok [c]
  else if (c <? 0x800)%N then
    Ok [N.lor 0xC0 (N.shiftr c 6); N.lor 0x80 (N.land c 0x3F)]
  else if is_surrogate c then Raise UnicodeEncodeError
  else if (c <? 0x10000)%N then
    Ok [N.lor 0xE0 (N.shiftr c 12);
        N.lor 0x80 (N.land (N.shiftr c 6) 0x3F);
        N.lor 0x80 (N.land c 0x3F)]
  else
    Ok [N.lor 0xF0 (N.shiftr c 18);
        N.lor 0x80 (N.land (N.shiftr c 12) 0x3F);
        N.lor 0x80 (N.land (N.shiftr c 6) 0x3F);
        N.lor 0x80 (N.land c 0x3F)].

(** [s.encode('utf-8')] *)
Fixpoint encode_utf8 (s : pystr) : result (list N) :=
  match s with
  | [] => Ok []
  | c :: s' =>
      b ←! encode_char c;
      bs ←! encode_utf8 s';
      Ok (b ++ bs)
  end.

(** [text * n] for a text repeated [2^k] times, used to write down large
    inputs without spelling them out. *)
Fixpoint repeat_pow2 (k : nat) (s : pystr) : pystr :=
  match k with
  | O => s
  | S k' => repeat_pow2 k' (s ++ s)
  end.

(** ** Tokens (python-jose)

    The claims set of a token: the three claims the program writes, each of
    which a decoded payload may lack ([None] is what [payload.get] returns
    for a missing key).  [claim_exp] is in whole seconds. *)

Record claims : Type := {
  claim_sub : option string;
  claim_id : option Z;
  claim_exp : option Z
}.

(** The bearer string as the library parses it: either it is not a compact
    JWS with a JSON object as payload, or it has a header algorithm, a
    payload and a signature. *)
Inductive token : Type :=
| Malformed (raw : string)
| Jws (alg : string) (payload : claims) (signature : string).

(** The dictionary handed to [jwt.encode]; its [exp] is still a datetime. *)
Record to_encode : Type := {
  te_sub : string;
  te_id : Z;
  te_exp : datetime
}.

(** The dictionary returned by [get_current_user] and received by the
    handlers as [user]; [user.get(k)] is [None] for a missing key. *)
Record user_dict : Type := {
  ud_email : option string;
  ud_id : option Z
}.

(** Truth value of a dictionary: it has at least one key. *)
Definition dict_truthy (u : user_dict) : bool :=
  match ud_email u, ud_id u with
  | None, None => false
  | _, _ => true
  end.

(** ** Database rows and session *)

Record UserModel : Type := {
  user_id : Z;
  user_email : string;
  user_password_hash : string
}.

Record PostModel : Type := {
  post_id : Z;
  post_text : pystr;
  post_user_id : option Z
}.

(** The two tables in insertion order, and the next value of each
    autoincremented primary key. *)
Record Session : Type := {
  users : list UserModel;
  posts : list PostModel;
  users_next_id : Z;
  posts_next_id : Z
}.

(** The state the handlers share: the database and the Redis store, which
    maps a key to its value and to the instant the entry expires. *)
Record state : Type := {
  db : Session;
  cache : gmap string (string * Z)
}.

Definition empty_db : Session :=
  {| users := []; posts := []; users_next_id := 1; posts_next_id := 1 |}.

Definition empty_state : state := {| db := empty_db; cache := ∅ |}.

#[global] Instance UserModel_eq_dec : EqDecision UserModel.
Proof. solve_decision. Defined.

#[global] Instance PostModel_eq_dec : EqDecision PostModel.
Proof. solve_decision. Defined.

#[global] Instance claims_eq_dec : EqDecision claims.
Proof. solve_decision. Defined.

(** Declared length of the [String(255)] columns and the request limit. *)
Definition COLUMN_LENGTH : Z := 255.
Definition MAX_SIZE : Z := 1048576.
Definition SCHEMA_MAX_LENGTH : Z := 1048576.

(** ** Concrete stand-ins for the external primitives

    Used only to run the model on concrete requests; the theorems hold for
    every choice of the primitives. *)

Module Sample.

Definition show_opt_Z (o : option Z) : string :=
  match o with Some z => pretty z | None => "null" end.

(** A keyed tag over the header algorithm and the three claims. *)
Definition sign (alg key : string) (c : claims) : string :=
  key +:+ "." +:+ alg +:+ "." +:+ default "null" (claim_sub c)
      +:+ "." +:+ show_opt_Z (claim_id c)
      +:+ "." +:+ show_opt_Z (claim_exp c).

(** The password contains the NUL character, which bcrypt refuses. *)
Fixpoint has_nul (s : string) : bool :=
  match s with
  | EmptyString => false
  | String c s' => bool_decide (c = Ascii.zero) || has_nul s'
  end.

Definition pwd_hash (salt password : string) : result string :=
  if has_nul password then Raise PasswordValueError
  else Ok (password +:+ "$" +:+ salt).

Definition pwd_verify (password hashed : string) : result bool :=
  if has_nul password then Raise PasswordValueError
  else Ok (String.prefix (password +:+ "$") hashed).

Definition dumps (rows : list (Z * pystr)) : string :=
  String "["%char
    (String.concat ", " (map (λ r, pretty (fst r)) rows) +:+ "]").

Definition loads (s : string) : option string :=
  if String.prefix "[" s then Some s else None.

Definition SECRET_KEY : string := "k1".
Definition OTHER_KEY : string := "k2".
Definition ALGORITHM : string := "HS256".

End Sample.

(** ** The backend *)

Section Backend.

Set Default Proof Using "Type".

(** Signature of a payload under an algorithm and a key. *)
Variable jws_sign : string → string → claims → string.

(** Process-wide configuration read from the environment at import. *)
Variable SECRET_KEY : string.
Variable ALGORITHM : string.
Variable ACCESS_TOKEN_EXPIRE_MINUTES : option string.

(** [pwd_context.hash] with the salt it draws, and [pwd_context.verify].
    Both raise on a password the scheme refuses (bcrypt refuses one with a
    NUL character), and [verify] on a hash it cannot identify. *)
Variable pwd_context_hash : string → string → result string.
Variable pwd_context_verify : string → string → result bool.

(** [json.dumps] on the rows written to the cache, and [json.loads],
    which fails on a string that is not a JSON document. *)
Variable json : Type.
Variable json_dumps : list (Z * pystr) → string.
Variable json_loads : string → option json.

(** Whether the SQL backend rejects a value longer than the declared
    length of a [String(n)] column, and a reference to a missing row. *)
Variable enforces_varchar_length : bool.
Variable enforces_foreign_keys : bool.

(** *** python-jose *)

(** [jwt.encode]: a datetime [exp] is converted to whole seconds, then the
    claims are signed. *)
Definition jwt_encode (d : to_encode) (key alg : string) : token :=
  let c := {| claim_sub := Some (te_sub d);
              claim_id := Some (te_id d);
              claim_exp := Some (timegm_utctimetuple (te_exp d)) |} in
  Jws alg c (jws_sign alg key c).

(** [jwt.decode]: the header algorithm must be an allowed one, the
    signature must verify under the key, and a present [exp] must not be
    smaller than the current time in whole seconds. *)
Definition jwt_decode (t : token) (key : string) (algorithms : list string)
    (utcnow : datetime) : result claims :=
  match t with
  | Malformed _ => Raise JWTError
  | Jws alg c sg =>
      if bool_decide (alg ∈ algorithms) then
        if bool_decide (sg = jws_sign alg key c) then
          match claim_exp c with
          | Some e =>
              if e <? timegm_utctimetuple utcnow
              then Raise ExpiredSignatureError
              else Ok c
          | None => Ok c
          end
        else Raise JWTError
      else Raise JWTError
  end.

(** *** user_utils.py *)

Definition verify_password (plain_password hashed_password : string)
    : result bool :=
  pwd_context_verify plain_password hashed_password.

(** [salt] stands for the salt the library draws at each call. *)
Definition hash_password (salt password : string) : result string :=
  pwd_context_hash salt password.

(** [db.query(UserModel).filter(UserModel.email == email).first()] *)
Definition query_user_by_email (s : Session) (email : string)
    : option UserModel :=
  head (filter (λ u, user_email u = email) (users s)).

(** Returns the user, or [None] for the [False] of the source.  The
    password is verified only when a user has the e-mail ([or] evaluates
    its right operand only then), and what the verification raises
    escapes. *)
Definition authenticate_user (email password : string) (s : Session)
    : result (option UserModel) :=
  match query_user_by_email s email with
  | None => Ok None
  | Some user =>
      verified ←! verify_password password (user_password_hash user);
      if negb verified then Ok None else Ok (Some user)
  end.

(** [timedelta(minutes=ACCESS_TOKEN_EXPIRE_MINUTES)]: the setting is what
    [os.getenv] returned, a string or [None], and [timedelta] rejects
    both. *)
Definition default_expires_delta (setting : option string)
    : result timedelta :=
  Raise TypeError.

(** [expires_delta or timedelta(minutes=...)]: a zero delta is falsy. *)
Definition expires_delta_or_default (expires_delta : option timedelta)
    : result timedelta :=
  match expires_delta with
  | Some d =>
      if d =? 0 then default_expires_delta ACCESS_TOKEN_EXPIRE_MINUTES
      else Ok d
  | None => default_expires_delta ACCESS_TOKEN_EXPIRE_MINUTES
  end.

Definition create_access_token (email : string) (id : Z)
    (expires_delta : option timedelta) (utcnow : datetime) : result token :=
  delta ←! expires_delta_or_default expires_delta;
  expire ←! datetime_add utcnow delta;
  Ok (jwt_encode {| te_sub := email; te_id := id; te_exp := expire |}
        SECRET_KEY ALGORITHM).

Definition get_current_user (t : token) (utcnow : datetime)
    : result user_dict :=
  match jwt_decode t SECRET_KEY [ALGORITHM] utcnow with
  | Ok payload =>
      match claim_sub payload, claim_id payload with
      | Some email, Some id =>
          Ok {| ud_email := Some email; ud_id := Some id |}
      | _, _ =>
          Raise (HTTPException HTTP_401_UNAUTHORIZED
                   "Could not validate user")
      end
  | Raise e =>
      if isinstance_JWTError e
      then Raise (HTTPException HTTP_401_UNAUTHORIZED "Token expired")
      else Raise e
  end.

(** *** The SQL session *)

Definition str_len (s : string) : Z := Z.of_nat (String.length s).

Definition varchar_fits (n : Z) : bool :=
  negb enforces_varchar_length || (n <=? COLUMN_LENGTH).

Definition user_exists (s : Session) (id : Z) : bool :=
  bool_decide (Exists (λ u, user_id u = id) (users s)).

(** [posts.user_id] references [users.id]; a null reference is allowed. *)
Definition foreign_key_ok (s : Session) (uid : option Z) : bool :=
  match uid with
  | Some i => negb enforces_foreign_keys || user_exists s i
  | None => true
  end.

(** [db.add(user); db.commit(); db.refresh(user)] *)
Definition db_add_user (s : Session) (email password_hash : string)
    : result (UserModel * Session) :=
  if negb (varchar_fits (str_len email)
           && varchar_fits (str_len password_hash))
  then Raise DataError
  else if bool_decide (Exists (λ u, user_email u = email) (users s))
  then Raise IntegrityError
  else
    let user := {| user_id := users_next_id s;
                   user_email := email;
                   user_password_hash := password_hash |} in
    Ok (user, {| users := users s ++ [user];
                 posts := posts s;
                 users_next_id := users_next_id s + 1;
                 posts_next_id := posts_next_id s |}).

(** [db.add(post); db.commit(); db.refresh(post)] *)
Definition db_add_post (s : Session) (text : pystr) (uid : option Z)
    : result (PostModel * Session) :=
  if negb (varchar_fits (py_len text)) then Raise DataError
  else if negb (foreign_key_ok s uid) then Raise IntegrityError
  else
    let post := {| post_id := posts_next_id s;
                   post_text := text;
                   post_user_id := uid |} in
    Ok (post, {| users := users s;
                 posts := posts s ++ [post];
                 users_next_id := users_next_id s;
                 posts_next_id := posts_next_id s + 1 |}).

(** [db.query(PostModel).filter(PostModel.user_id == uid).all()]; with
    [uid = None] the comparison is rendered [IS NULL]. *)
Definition query_posts_by_user (s : Session) (uid : option Z)
    : list PostModel :=
  filter (λ p, post_user_id p = uid) (posts s).

(** [db.query(PostModel).filter(PostModel.id == post_id,
    PostModel.user_id == uid).first()] *)
Definition query_post_by_id_and_user (s : Session) (pid : Z)
    (uid : option Z) : option PostModel :=
  head (filter (λ p, post_id p = pid ∧ post_user_id p = uid) (posts s)).

(** [db.delete(post); db.commit()]: the row is deleted by primary key. *)
Definition db_delete_post (s : Session) (post : PostModel) : Session :=
  {| users := users s;
     posts := filter (λ p, post_id p ≠ post_id post) (posts s);
     users_next_id := users_next_id s;
     posts_next_id := posts_next_id s |}.

(** *** Redis *)

(** [GET key]: an entry is gone once its expiry instant is reached. *)
Definition redis_get (r : gmap string (string * Z)) (key : string)
    (now : datetime) : option string :=
  match r !! key with
  | Some (v, expires_at) => if now <? expires_at then Some v else None
  | None => None
  end.

(** [SET key value EX ex] *)
Definition redis_set (r : gmap string (string * Z)) (key value : string)
    (ex : Z) (now : datetime) : gmap string (string * Z) :=
  <[key := (value, now + timedelta_seconds ex)]> r.

(** Truth value of what [GET] returned: a non-empty string. *)
Definition cached_truthy (o : option string) : bool :=
  match o with
  | Some (String _ _) => true
  | _ => false
  end.

Definition with_db (st : state) (s : Session) : state :=
  {| db := s; cache := cache st |}.

Definition with_cache (st : state) (r : gmap string (string * Z)) : state :=
  {| db := db st; cache := r |}.

(** *** users_endpoints.py *)

Record UserRegisterModel : Type := {
  reg_email : string;
  reg_password : string
}.

Record UserLoginModel : Type := {
  login_email : string;
  login_password : string
}.

(** The bearer response [{'access_token': token, 'token_type': 'bearer'}]. *)
Record Token : Type := {
  access_token : token;
  token_type : string
}.

(** [salt] is the salt the password hash draws for this call. *)
Definition register_user (user_data : UserRegisterModel) (st : state)
    (salt : string) (utcnow : datetime) : result Token * state :=
  match query_user_by_email (db st) (reg_email user_data) with
  | Some _ =>
      (Raise (HTTPException HTTP_400_BAD_REQUEST "User already exists"), st)
  | None =>
      match hash_password salt (reg_password user_data) with
      | Raise e => (Raise e, st)
      | Ok password_hash =>
          match db_add_user (db st) (reg_email user_data) password_hash with
          | Raise e => (Raise e, st)
          | Ok (user, s') =>
              (token ←! create_access_token (user_email user) (user_id user)
                          (Some (timedelta_minutes 20)) utcnow;
               Ok {| access_token := token; token_type := "bearer" |},
               with_db st s')
          end
      end
  end.

Definition login_user (user_data : UserLoginModel) (st : state)
    (utcnow : datetime) : result Token * state :=
  match authenticate_user (login_email user_data)
          (login_password user_data) (db st) with
  | Raise e => (Raise e, st)
  | Ok None =>
      (Raise (HTTPException HTTP_404_NOT_FOUND "User not found"), st)
  | Ok (Some user) =>
      (token ←! create_access_token (user_email user) (user_id user)
                  (Some (timedelta_minutes 20)) utcnow;
       Ok {| access_token := token; token_type := "bearer" |},
       st)
  end.

(** *** posts_endpoints.py *)

Record PostCreateSchema : Type := { text : pystr }.

(** Validation of the request body against [PostCreateSchema]:
    [max_length] counts characters. *)
Definition validate_PostCreateSchema (body_text : pystr)
    : result PostCreateSchema :=
  if SCHEMA_MAX_LENGTH <? py_len body_text then Raise RequestValidationError
  else Ok {| text := body_text |}.

(** The response [{"PostID": post.id, "detail": "Post created"}]. *)
Record PostCreated : Type := { PostID : Z; detail : string }.

Definition add_post (post_data : PostCreateSchema) (st : state)
    (user : user_dict) : result PostCreated * state :=
  if negb (dict_truthy user) then
    (Raise (HTTPException HTTP_401_UNAUTHORIZED "Unauthorized"), st)
  else
    match encode_utf8 (text post_data) with
    | Raise e => (Raise e, st)
    | Ok encoded =>
        if MAX_SIZE <? py_len encoded then
          (Raise (HTTPException HTTP_413_REQUEST_ENTITY_TOO_LARGE
                    "Text exceeds 1MB size limit."), st)
        else
          match db_add_post (db st) (text post_data) (ud_id user) with
          | Raise e => (Raise e, st)
          | Ok (post, s') =>
              (Ok {| PostID := post_id post; detail := "Post created" |},
               with_db st s')
          end
    end.

(** [f"{user_id}"] for the value of [user.get("id")]. *)
Definition format_id (uid : option Z) : string :=
  match uid with
  | Some i => pretty i
  | None => "None"
  end.

Definition cache_key_of (uid : option Z) : string :=
  "post_user" +:+ format_id uid.

(** The rows written to the cache: [{"id": c.id, "name": c.text}] for
    every post of the table. *)
Definition posts_data_of (ps : list PostModel) : list (Z * pystr) :=
  map (λ c, (post_id c, post_text c)) ps.

Definition get_posts (st : state) (user : user_dict) (now : datetime)
    : result (list PostModel) * state :=
  if negb (dict_truthy user) then
    (Raise (HTTPException HTTP_401_UNAUTHORIZED "Unauthorized"), st)
  else
    let user_id := ud_id user in
    let cache_key := cache_key_of user_id in
    let cached_data := redis_get (cache st) cache_key now in
    if cached_truthy cached_data then
      match json_loads (default "" cached_data) with
      | None => (Raise JSONDecodeError, st)
      | Some _ => (Ok (query_posts_by_user (db st) (ud_id user)), st)
      end
    else
      let posts := posts (db st) in
      let posts_data := posts_data_of posts in
      let st' := with_cache st
                   (redis_set (cache st) cache_key (json_dumps posts_data)
                      5 now) in
      (Ok (query_posts_by_user (db st') (ud_id user)), st').

Definition delete_post (post_id : Z) (st : state) (user : user_dict)
    : result unit * state :=
  if negb (dict_truthy user) then
    (Raise (HTTPException HTTP_401_UNAUTHORIZED "Unauthorized"), st)
  else
    match query_post_by_id_and_user (db st) post_id (ud_id user) with
    | None =>
        (Raise (HTTPException HTTP_404_NOT_FOUND "Post not found"), st)
    | Some post => (Ok (), with_db st (db_delete_post (db st) post))
    end.

(** *** Routes

    A route resolves its dependencies first ([get_current_user] on the
    bearer token), then validates the body, then runs the handler. *)

Definition route_add_post (t : token) (body_text : pystr) (st : state)
    (now : datetime) : result PostCreated * state :=
  match get_current_user t now with
  | Raise e => (Raise e, st)
  | Ok user =>
      match validate_PostCreateSchema body_text with
      | Raise e => (Raise e, st)
      | Ok post_data => add_post post_data st user
      end
  end.

Definition route_get_posts (t : token) (st : state) (now : datetime)
    : result (list PostModel) * state :=
  match get_current_user t now with
  | Raise e => (Raise e, st)
  | Ok user => get_posts st user now
  end.

Definition route_delete_post (t : token) (post_id : Z) (st : state)
    (now : datetime) : result unit * state :=
  match get_current_user t now with
  | Raise e => (Raise e, st)
  | Ok user => delete_post post_id st user
  end.

(** *** Reachable states

    The states the service can be in: the empty store and cache, followed
    by any sequence of calls to the five handlers. *)

Inductive reachable : state → Prop :=
| reach_empty : reachable empty_state
| reach_register st user_data salt now :
    reachable st → reachable (register_user user_data st salt now).2
| reach_login st user_data now :
    reachable st → reachable (login_user user_data st now).2
| reach_add_post st post_data user :
    reachable st → reachable (add_post post_data st user).2
| reach_get_posts st user now :
    reachable st → reachable (get_posts st user now).2
| reach_delete_post st pid user :
    reachable st → reachable (delete_post pid st user).2.

(** Every value held by the cache is a JSON document. *)
Definition cache_decodable (r : gmap string (string * Z)) : Prop :=
  ∀ k v e, r !! k = Some (v, e) → is_Some (json_loads v).

(** Every stored post text fits the declared column length. *)
Definition posts_fit_column (s : Session) : Prop :=
  Forall (λ p, py_len (post_text p) <= COLUMN_LENGTH) (posts s).

(** The JSON codec decodes what it encoded. *)
Definition json_codec_ok : Prop :=
  ∀ rows, is_Some (json_loads (json_dumps rows)).

(** The two errors of [get_current_user]. *)
Definition TOKEN_EXPIRED : exn :=
  HTTPException HTTP_401_UNAUTHORIZED "Token expired".

Definition COULD_NOT_VALIDATE : exn :=
  HTTPException HTTP_401_UNAUTHORIZED "Could not validate user".

(** The payload [create_access_token] signs. *)
Definition issued_claims (email : string) (id : Z) (expire : datetime)
    : claims :=
  {| claim_sub := Some email;
     claim_id := Some id;
     claim_exp := Some (timegm_utctimetuple expire) |}.

(** The row that [db_add_user] inserts, and the row that [db_add_post]
    inserts: the next value of the primary key goes with the given
    columns. *)
Definition new_user_row (s : Session) (email password_hash : string)
    : UserModel :=
  {| user_id := users_next_id s;
     user_email := email;
     user_password_hash := password_hash |}.

Definition new_post_row (s : Session) (text : pystr) (uid : option Z)
    : PostModel :=
  {| post_id := posts_next_id s; post_text := text; post_user_id := uid |}.

(** E-mails and user ids are pairwise distinct, and the id counter is ahead
    of every id in use. *)
Definition users_wf (s : Session) : Prop :=
  NoDup (user_email <$> users s)
  ∧ NoDup (user_id <$> users s)
  ∧ Forall (λ u, user_id u < users_next_id s) (users s).

(** Post ids are pairwise distinct and below the id counter. *)
Definition posts_wf (s : Session) : Prop :=
  NoDup (post_id <$> posts s)
  ∧ Forall (λ p, post_id p < posts_next_id s) (posts s).

(** The request was refused for its size. *)
Definition TOO_LARGE : exn :=
  HTTPException HTTP_413_REQUEST_ENTITY_TOO_LARGE
    "Text exceeds 1MB size limit.".

Definition UNAUTHORIZED : exn :=
  HTTPException HTTP_401_UNAUTHORIZED "Unauthorized".


(** ** Properties *)

(** *** Time and text lemmas *)

Lemma timegm_add_seconds d s :
  timegm_utctimetuple (d + timedelta_seconds s) = timegm_utctimetuple d + s.
Proof.
  unfold timegm_utctimetuple, timedelta_seconds.
  rewrite Z.div_add by lia. reflexivity.
Qed.

Lemma timegm_add_20_minutes d :
  timegm_utctimetuple (d + timedelta_minutes 20)
  = timegm_utctimetuple d + 1200.
Proof.
  replace (timedelta_minutes 20) with (timedelta_seconds 1200)
    by reflexivity.
  apply timegm_add_seconds.
Qed.

Lemma py_len_app {A} (a b : list A) : py_len (a ++ b) = py_len a + py_len b.
Proof. unfold py_len. rewrite length_app. lia. Qed.

Lemma py_len_cons {A} (x : A) (l : list A) : py_len (x :: l) = 1 + py_len l.
Proof. unfold py_len. cbn [length]. lia. Qed.

Lemma py_len_nonneg {A} (l : list A) : 0 <= py_len l.
Proof. unfold py_len. lia. Qed.

Lemma py_len_repeat_pow2 k s :
  py_len (repeat_pow2 k s) = 2 ^ Z.of_nat k * py_len s.
Proof.
  revert s. induction k as [|k IH]; intros s.
  - cbn [repeat_pow2]. change (2 ^ Z.of_nat 0) with 1. lia.
  - cbn [repeat_pow2]. rewrite IH, py_len_app.
    rewrite Nat2Z.inj_succ, Z.pow_succ_r by lia. lia.
Qed.

Lemma Forall_repeat_pow2 (P : N → Prop) k s :
  Forall P s → Forall P (repeat_pow2 k s).
Proof.
  revert s. induction k as [|k IH]; intros s Hs; cbn [repeat_pow2].
  - exact Hs.
  - apply IH. apply Forall_app. split; exact Hs.
Qed.

(** A text of ASCII characters is its own encoding. *)
Lemma encode_utf8_ascii s :
  Forall (λ c, (c < 0x80)%N) s → encode_utf8 s = Ok s.
Proof.
  induction 1 as [|c s Hc _ IH]; [reflexivity|].
  cbn [encode_utf8]. unfold encode_char.
  apply N.ltb_lt in Hc. rewrite Hc. cbn [bind]. rewrite IH. reflexivity.
Qed.

(** A text of two-byte characters encodes to twice as many bytes. *)
Lemma encode_utf8_two_byte s :
  Forall (λ c, (0x80 <= c < 0x800)%N) s →
  ∃ encoded, encode_utf8 s = Ok encoded ∧ py_len encoded = 2 * py_len s.
Proof.
  induction 1 as [|c s [Hlo Hhi] _ (encoded & IH & Hlen)].
  - exists []. split; reflexivity.
  - cbn [encode_utf8]. unfold encode_char.
    apply N.ltb_ge in Hlo. apply N.ltb_lt in Hhi. rewrite Hlo, Hhi.
    cbn [bind]. rewrite IH. cbn [bind]. eexists. split; [reflexivity|].
    rewrite py_len_cons in *. cbn [app]. rewrite !py_len_cons. lia.
Qed.

(** Every character takes at least one byte. *)
Lemma encode_utf8_length s encoded :
  encode_utf8 s = Ok encoded → py_len s <= py_len encoded.
Proof.
  revert encoded. induction s as [|c s IH]; intros encoded H.
  - cbn in H. injection H as <-. reflexivity.
  - cbn [encode_utf8] in H.
    destruct (encode_char c) as [b|] eqn:Hc; [|discriminate].
    cbn [bind] in H.
    destruct (encode_utf8 s) as [bs|] eqn:Hs; [|discriminate].
    cbn [bind] in H. injection H as <-.
    specialize (IH bs eq_refl).
    rewrite py_len_cons, py_len_app.
    assert (1 <= py_len b); [|lia].
    unfold encode_char in Hc.
    repeat match type of Hc with
           | (if ?g then _ else _) = _ => destruct g
           end; try discriminate; injection Hc as <-;
      rewrite !py_len_cons; pose proof (py_len_nonneg (@nil N)); lia.
Qed.

(** *** Query lemmas *)

Lemma head_filter_None {A} (P : A → Prop) `{∀ x, Decision (P x)} l :
  head (filter P l) = None ↔ Forall (λ x, ¬ P x) l.
Proof.
  rewrite head_None. induction l as [|x l IH].
  - split; [constructor|reflexivity].
  - rewrite filter_cons. destruct (decide (P x)).
    + split; [discriminate|]. intros HF. inversion HF; contradiction.
    + rewrite IH. split; [by constructor|]. by inversion 1.
Qed.

Lemma head_filter_Some {A} (P : A → Prop) `{∀ x, Decision (P x)} l x :
  head (filter P l) = Some x → x ∈ l ∧ P x.
Proof.
  intros Hh. apply head_Some in Hh as [l' Hl'].
  assert (Hx : x ∈ filter P l) by (rewrite Hl'; left).
  apply list_elem_of_filter in Hx as [HP Hin]. by split.
Qed.

Lemma query_user_by_email_None s email :
  query_user_by_email s email = None
  ↔ Forall (λ u, user_email u ≠ email) (users s).
Proof. apply head_filter_None. Qed.

Lemma query_user_by_email_Some s email u :
  query_user_by_email s email = Some u → u ∈ users s ∧ user_email u = email.
Proof. apply (head_filter_Some (λ v, user_email v = email)). Qed.

Lemma query_user_by_email_exists s email :
  (∃ u, u ∈ users s ∧ user_email u = email) →
  is_Some (query_user_by_email s email).
Proof.
  intros (u & Hin & He).
  destruct (query_user_by_email s email) eqn:Hq; [eauto|].
  apply query_user_by_email_None in Hq.
  rewrite Forall_forall in Hq. destruct (Hq u Hin He).
Qed.

(** *** Token lemmas *)

Lemma create_access_token_Ok email id ttl now tok :
  create_access_token email id ttl now = Ok tok →
  ∃ delta,
    ttl = Some delta ∧ delta ≠ 0 ∧
    tok = Jws ALGORITHM (issued_claims email id (now + delta))
            (jws_sign ALGORITHM SECRET_KEY
               (issued_claims email id (now + delta))).
Proof.
  unfold create_access_token, expires_delta_or_default,
    default_expires_delta.
  destruct ttl as [d|]; [|discriminate].
  destruct (Z.eqb_spec d 0) as [->|Hd]; [discriminate|].
  cbn [bind]. unfold datetime_add.
  destruct (_ && _); [|discriminate].
  cbn [bind]. intros [= <-]. exists d. done.
Qed.

Lemma create_access_token_20_minutes email id now :
  datetime_min <= now + timedelta_minutes 20 <= datetime_max →
  create_access_token email id (Some (timedelta_minutes 20)) now
  = Ok (Jws ALGORITHM
          (issued_claims email id (now + timedelta_minutes 20))
          (jws_sign ALGORITHM SECRET_KEY
             (issued_claims email id (now + timedelta_minutes 20)))).
Proof.
  intros [Hlo Hhi].
  unfold create_access_token, expires_delta_or_default.
  change (timedelta_minutes 20 =? 0) with false. cbn [bind].
  unfold datetime_add.
  apply Z.leb_le in Hlo, Hhi. rewrite Hlo, Hhi. reflexivity.
Qed.

Lemma jwt_decode_signed c now :
  jwt_decode (Jws ALGORITHM c (jws_sign ALGORITHM SECRET_KEY c))
    SECRET_KEY [ALGORITHM] now
  = match claim_exp c with
    | Some e =>
        if e <? timegm_utctimetuple now then Raise ExpiredSignatureError
        else Ok c
    | None => Ok c
    end.
Proof.
  unfold jwt_decode.
  rewrite bool_decide_eq_true_2 by apply list_elem_of_singleton, eq_refl.
  rewrite bool_decide_eq_true_2 by reflexivity. reflexivity.
Qed.

Lemma jwt_decode_bad_signature alg c sg key algorithms now :
  sg ≠ jws_sign alg key c →
  jwt_decode (Jws alg c sg) key algorithms now = Raise JWTError.
Proof.
  intros Hsg. unfold jwt_decode.
  rewrite (bool_decide_eq_false_2 _ Hsg). by destruct (bool_decide _).
Qed.

Lemma get_current_user_issued email id expire t :
  get_current_user
    (Jws ALGORITHM (issued_claims email id expire)
       (jws_sign ALGORITHM SECRET_KEY (issued_claims email id expire))) t
  = if timegm_utctimetuple expire <? timegm_utctimetuple t
    then Raise TOKEN_EXPIRED
    else Ok {| ud_email := Some email; ud_id := Some id |}.
Proof.
  unfold get_current_user. rewrite jwt_decode_signed.
  cbn [issued_claims claim_exp claim_sub claim_id].
  by destruct (_ <? _).
Qed.

Lemma get_current_user_Raise t now e :
  get_current_user t now = Raise e →
  e = TOKEN_EXPIRED ∨ e = COULD_NOT_VALIDATE.
Proof.
  unfold get_current_user, jwt_decode.
  destruct t as [raw|alg c sg]; cbn.
  - intros [= <-]. by left.
  - repeat case_bool_decide; cbn; try (intros [= <-]; by left).
    destruct (claim_exp c) as [x|]; [destruct (x <? _)|]; cbn;
      try (intros [= <-]; by left);
      destruct (claim_sub c), (claim_id c); intros [= <-]; by right.
Qed.

(** An authenticated caller's dictionary carries both keys. *)
Lemma get_current_user_Ok t now user :
  get_current_user t now = Ok user →
  ∃ email id, user = {| ud_email := Some email; ud_id := Some id |}.
Proof.
  unfold get_current_user.
  destruct (jwt_decode _ _ _ _) as [c|e]; [|by destruct (isinstance_JWTError e)].
  destruct (claim_sub c), (claim_id c); intros [= <-]; eauto.
Qed.

(** *** C2 *)

(** C2 (amended).  A token produced by [create_access_token] validates
    under the process-wide key at every time strictly before its
    expiration, returning exactly the e-mail and the user id that were
    encoded.  The expiration is kept in whole seconds and only a reading
    of the clock beyond it is refused, so the token also validates during
    the whole second in which it expires; from the next second on,
    validation fails with the 401 "Token expired" error. *)
Theorem issued_token_round_trip email id ttl now tok :
  create_access_token email id ttl now = Ok tok →
  ∃ delta c sg,
    ttl = Some delta ∧
    tok = Jws ALGORITHM c sg ∧
    claim_exp c = Some (timegm_utctimetuple (now + delta)) ∧
    (∀ t, t < now + delta →
       get_current_user tok t
       = Ok {| ud_email := Some email; ud_id := Some id |}) ∧
    (∀ t, timegm_utctimetuple t <= timegm_utctimetuple (now + delta) →
       get_current_user tok t
       = Ok {| ud_email := Some email; ud_id := Some id |}) ∧
    (∀ t, timegm_utctimetuple (now + delta) < timegm_utctimetuple t →
       get_current_user tok t = Raise TOKEN_EXPIRED) ∧
    (∀ t, (timegm_utctimetuple (now + delta) + 1) * 1000000 <= t →
       get_current_user tok t = Raise TOKEN_EXPIRED).
Proof.
  intros (delta & -> & _ & ->)%create_access_token_Ok.
  assert (Hok : ∀ t,
            timegm_utctimetuple t <= timegm_utctimetuple (now + delta) →
            get_current_user
              (Jws ALGORITHM (issued_claims email id (now + delta))
                 (jws_sign ALGORITHM SECRET_KEY
                    (issued_claims email id (now + delta)))) t
            = Ok {| ud_email := Some email; ud_id := Some id |}).
  { intros t Ht. rewrite get_current_user_issued.
    destruct (Z.ltb_spec (timegm_utctimetuple (now + delta))
                (timegm_utctimetuple t)); [lia|reflexivity]. }
  assert (Hexpired : ∀ t,
            timegm_utctimetuple (now + delta) < timegm_utctimetuple t →
            get_current_user
              (Jws ALGORITHM (issued_claims email id (now + delta))
                 (jws_sign ALGORITHM SECRET_KEY
                    (issued_claims email id (now + delta)))) t
            = Raise TOKEN_EXPIRED).
  { intros t Ht. rewrite get_current_user_issued.
    destruct (Z.ltb_spec (timegm_utctimetuple (now + delta))
                (timegm_utctimetuple t)); [reflexivity|lia]. }
  eexists delta, _, _. split_and!; try reflexivity.
  - intros t Ht. apply Hok. unfold timegm_utctimetuple.
    apply Z.div_le_mono; lia.
  - exact Hok.
  - exact Hexpired.
  - intros t Ht. apply Hexpired. unfold timegm_utctimetuple in *.
    apply Z.lt_le_trans
      with (m := (((now + delta) `div` 1000000 + 1) * 1000000) `div` 1000000).
    + rewrite Z.div_mul by lia. lia.
    + apply Z.div_le_mono; lia.
Qed.

(** *** C4 *)

(** C4 (amended).  Every failure of [get_current_user] is a 401.  A token
    that is not a JWS, that names another algorithm or whose signature
    does not verify under the process-wide key, and a verified token whose
    [exp] has passed, all fail with the same error, 401 "Token expired";
    in particular a token signed with a key under which the signature
    differs fails with that error.  A verified, unexpired token whose
    payload lacks [sub] or [id] fails with 401 "Could not validate
    user". *)
Theorem validation_failures t now :
  (∀ e, get_current_user t now = Raise e →
     e = TOKEN_EXPIRED ∨ e = COULD_NOT_VALIDATE) ∧
  (∀ raw, t = Malformed raw → get_current_user t now = Raise TOKEN_EXPIRED) ∧
  (∀ alg c sg, t = Jws alg c sg →
     alg ≠ ALGORITHM ∨ sg ≠ jws_sign alg SECRET_KEY c →
     get_current_user t now = Raise TOKEN_EXPIRED) ∧
  (∀ key c, t = Jws ALGORITHM c (jws_sign ALGORITHM key c) →
     jws_sign ALGORITHM key c ≠ jws_sign ALGORITHM SECRET_KEY c →
     get_current_user t now = Raise TOKEN_EXPIRED) ∧
  (∀ c e, t = Jws ALGORITHM c (jws_sign ALGORITHM SECRET_KEY c) →
     claim_exp c = Some e → e < timegm_utctimetuple now →
     get_current_user t now = Raise TOKEN_EXPIRED) ∧
  (∀ c, t = Jws ALGORITHM c (jws_sign ALGORITHM SECRET_KEY c) →
     (∀ e, claim_exp c = Some e → timegm_utctimetuple now <= e) →
     claim_sub c = None ∨ claim_id c = None →
     get_current_user t now = Raise COULD_NOT_VALIDATE).
Proof.
  split_and!.
  - intros e. apply get_current_user_Raise.
  - intros raw ->. reflexivity.
  - intros alg c sg -> [Halg|Hsg]; unfold get_current_user.
    + unfold jwt_decode. rewrite bool_decide_eq_false_2; [reflexivity|].
      by rewrite list_elem_of_singleton.
    + by rewrite jwt_decode_bad_signature.
  - intros key c -> Hsg. unfold get_current_user.
    by rewrite jwt_decode_bad_signature.
  - intros c e -> He Hlt. unfold get_current_user.
    rewrite jwt_decode_signed, He.
    apply Z.ltb_lt in Hlt. by rewrite Hlt.
  - intros c -> Hexp Hmiss. unfold get_current_user.
    rewrite jwt_decode_signed.
    assert (Hdec : match claim_exp c with
                   | Some e =>
                       if e <? timegm_utctimetuple now
                       then Raise ExpiredSignatureError
                       else Ok c
                   | None => Ok c
                   end = Ok c).
    { destruct (claim_exp c) as [e|]; [|reflexivity].
      specialize (Hexp e eq_refl).
      destruct (Z.ltb_spec e (timegm_utctimetuple now)); [lia|reflexivity]. }
    rewrite Hdec.
    destruct Hmiss as [-> | ->]; [reflexivity|].
    by destruct (claim_sub c).
Qed.

(** *** Registration and login lemmas *)

Lemma register_user_conflict user_data st salt now :
  is_Some (query_user_by_email (db st) (reg_email user_data)) →
  register_user user_data st salt now
  = (Raise (HTTPException HTTP_400_BAD_REQUEST "User already exists"), st).
Proof. intros [u Hu]. unfold register_user. by rewrite Hu. Qed.

Lemma db_add_user_Ok s email password_hash user s' :
  db_add_user s email password_hash = Ok (user, s') →
  user = {| user_id := users_next_id s;
            user_email := email;
            user_password_hash := password_hash |}
  ∧ users s' = users s ++ [user]
  ∧ posts s' = posts s.
Proof.
  unfold db_add_user.
  destruct (negb _); [discriminate|].
  case_bool_decide; [discriminate|].
  intros [= <- <-]. done.
Qed.

Lemma register_user_Ok user_data st salt now tok st' :
  register_user user_data st salt now = (Ok tok, st') →
  ∃ user,
    user ∈ users (db st') ∧
    user_email user = reg_email user_data ∧
    cache st' = cache st ∧
    posts (db st') = posts (db st) ∧
    token_type tok = "bearer" ∧
    create_access_token (user_email user) (user_id user)
      (Some (timedelta_minutes 20)) now = Ok (access_token tok).
Proof.
  unfold register_user.
  destruct (query_user_by_email _ _); [discriminate|].
  destruct (hash_password _ _) as [password_hash|e]; [|discriminate].
  destruct (db_add_user _ _ _) as [[user s']|e] eqn:Hadd; [|discriminate].
  destruct (create_access_token _ _ _ _) as [t|e] eqn:Htok;
    cbn [bind]; [|discriminate].
  intros [= <- <-].
  apply db_add_user_Ok in Hadd as (Hu & Husers & Hposts).
  exists user. cbn. split_and!; try done.
  - rewrite Husers. apply elem_of_app. right. left.
  - by rewrite Hu.
Qed.

Lemma authenticate_user_Some email password s user :
  authenticate_user email password s = Ok (Some user) →
  user ∈ users s ∧ user_email user = email
  ∧ verify_password password (user_password_hash user) = Ok true.
Proof.
  unfold authenticate_user.
  destruct (query_user_by_email s email) as [u|] eqn:Hq; [|discriminate].
  destruct (verify_password _ _) as [[|]|e] eqn:Hv; cbn; try discriminate.
  intros [= <-]. apply query_user_by_email_Some in Hq as [Hin He].
  by split_and!.
Qed.



(** *** C9 *)


(** *** C6 *)

(** C6.  Registering an e-mail that is already in the users table fails
    with 400 "User already exists" and leaves the state as it was; so
    after a registration that succeeded, every further registration of
    the same e-mail, whatever the password, fails with that error. *)
Theorem register_existing_email_conflict :
  (∀ user_data st salt now,
     (∃ u, u ∈ users (db st) ∧ user_email u = reg_email user_data) →
     register_user user_data st salt now
     = (Raise (HTTPException HTTP_400_BAD_REQUEST "User already exists"),
        st)
     ∧ response_status HTTP_201_CREATED
         (register_user user_data st salt now).1 = 400) ∧
  (∀ first st salt1 now1 tok st',
     register_user first st salt1 now1 = (Ok tok, st') →
     ∀ second salt2 now2,
       reg_email second = reg_email first →
       register_user second st' salt2 now2
       = (Raise (HTTPException HTTP_400_BAD_REQUEST "User already exists"),
          st')).
Proof.
  split.
  - intros user_data st salt now Hex.
    apply query_user_by_email_exists in Hex.
    rewrite (register_user_conflict _ _ _ _ Hex). done.
  - intros first st salt1 now1 tok st' Hreg second salt2 now2 Hsame.
    apply register_user_Ok in Hreg as (user & Hin & He & _).
    apply register_user_conflict, query_user_by_email_exists.
    exists user. by rewrite Hsame.
Qed.

(** *** C7 *)

(** C7.  [login_user] answers 404 "User not found" when no user has the
    e-mail, without verifying anything, and it gives the very same answer
    when a user has the e-mail and the verification of the password returns
    false.  It does not do so when the verification raises, as bcrypt does
    on a password with a NUL character: the password is verified only when
    the e-mail is stored, the exception is not caught, and the request is
    then answered with that exception (500) instead of 404, which tells a
    stored e-mail from an unknown one. *)
Theorem login_unknown_email_or_bad_password
    email1 password1 st1 now1 email2 password2 st2 now2 :
  (∀ u, u ∈ users (db st1) → user_email u ≠ email1) →
  (∃ u, u ∈ users (db st2) ∧ user_email u = email2) →
  authenticate_user email1 password1 (db st1) = Ok None
  ∧ login_user {| login_email := email1; login_password := password1 |}
      st1 now1
    = (Raise (HTTPException HTTP_404_NOT_FOUND "User not found"), st1)
  ∧ ((∀ u, u ∈ users (db st2) → user_email u = email2 →
           verify_password password2 (user_password_hash u) = Ok false) →
       authenticate_user email2 password2 (db st2) = Ok None
       ∧ login_user {| login_email := email2; login_password := password2 |}
           st2 now2
         = (Raise (HTTPException HTTP_404_NOT_FOUND "User not found"), st2))
  ∧ (∀ e,
       (∀ u, u ∈ users (db st2) → user_email u = email2 →
             verify_password password2 (user_password_hash u) = Raise e) →
       authenticate_user email2 password2 (db st2) = Raise e
       ∧ login_user {| login_email := email2; login_password := password2 |}
           st2 now2
         = (Raise e, st2)
       ∧ (e ≠ HTTPException HTTP_404_NOT_FOUND "User not found" →
          (login_user {| login_email := email2; login_password := password2 |}
             st2 now2).1
          ≠ (login_user
               {| login_email := email1; login_password := password1 |}
               st1 now1).1)).
Proof.
  intros Habsent Hpresent.
  assert (H1 : authenticate_user email1 password1 (db st1) = Ok None).
  { unfold authenticate_user.
    destruct (query_user_by_email (db st1) email1) as [u|] eqn:Hq;
      [|reflexivity].
    apply query_user_by_email_Some in Hq as [Hin He].
    destruct (Habsent u Hin He). }
  destruct (query_user_by_email_exists _ _ Hpresent) as [user Hq].
  pose proof (query_user_by_email_Some _ _ _ Hq) as [Hin He].
  assert (Hlogin1 :
    login_user {| login_email := email1; login_password := password1 |}
      st1 now1
    = (Raise (HTTPException HTTP_404_NOT_FOUND "User not found"), st1)).
  { unfold login_user. cbn [login_email login_password]. by rewrite H1. }
  split_and!; [exact H1|exact Hlogin1| |].
  - intros Hwrong.
    assert (H2 : authenticate_user email2 password2 (db st2) = Ok None).
    { unfold authenticate_user. rewrite Hq.
      by rewrite (Hwrong user Hin He). }
    split; [exact H2|].
    unfold login_user. cbn [login_email login_password]. by rewrite H2.
  - intros e Hraise.
    assert (H2 : authenticate_user email2 password2 (db st2) = Raise e).
    { unfold authenticate_user. rewrite Hq.
      by rewrite (Hraise user Hin He). }
    assert (Hlogin2 :
      login_user {| login_email := email2; login_password := password2 |}
        st2 now2 = (Raise e, st2)).
    { unfold login_user. cbn [login_email login_password]. by rewrite H2. }
    split_and!; [exact H2|exact Hlogin2|].
    intros Hne. rewrite Hlogin1, Hlogin2. cbn [fst]. congruence.
Qed.

(** *** What each handler does to the state *)

Lemma register_user_state user_data st salt now :
  cache (register_user user_data st salt now).2 = cache st
  ∧ posts (db (register_user user_data st salt now).2) = posts (db st).
Proof.
  unfold register_user.
  destruct (query_user_by_email _ _); [done|].
  destruct (hash_password _ _) as [password_hash|e]; [|done].
  destruct (db_add_user _ _ _) as [[user s']|e] eqn:Hadd; [|done].
  apply db_add_user_Ok in Hadd as (_ & _ & Hposts). done.
Qed.

Lemma login_user_state user_data st now :
  (login_user user_data st now).2 = st.
Proof.
  unfold login_user. by destruct (authenticate_user _ _ _) as [[user|]|e].
Qed.

Lemma add_post_cache post_data st user :
  cache (add_post post_data st user).2 = cache st.
Proof.
  unfold add_post.
  destruct (negb _); [done|].
  destruct (encode_utf8 _); [|done].
  destruct (_ <? _); [done|].
  by destruct (db_add_post _ _ _) as [[post s']|e].
Qed.

Lemma delete_post_cache pid st user :
  cache (delete_post pid st user).2 = cache st.
Proof.
  unfold delete_post.
  destruct (negb _); [done|].
  by destruct (query_post_by_id_and_user _ _ _).
Qed.

Lemma get_posts_db st user now :
  db (get_posts st user now).2 = db st.
Proof.
  unfold get_posts.
  destruct (negb _); [done|].
  destruct (cached_truthy _); [|done].
  by destruct (json_loads _).
Qed.

Lemma get_posts_cache st user now :
  cache (get_posts st user now).2 = cache st
  ∨ ∃ key rows expires_at,
      cache (get_posts st user now).2
      = <[key := (json_dumps rows, expires_at)]> (cache st).
Proof.
  unfold get_posts.
  destruct (negb _); [by left|].
  destruct (cached_truthy _).
  - left. by destruct (json_loads _).
  - right. unfold redis_set. cbn. eauto.
Qed.

(** *** Invariants of the reachable states *)

Lemma cache_decodable_insert r key rows expires_at :
  json_codec_ok → cache_decodable r →
  cache_decodable (<[key := (json_dumps rows, expires_at)]> r).
Proof.
  intros Hcodec Hr k v e. rewrite lookup_insert.
  case_decide; [|apply Hr].
  intros [= <- <-]. apply Hcodec.
Qed.

Lemma reachable_cache_decodable st :
  json_codec_ok → reachable st → cache_decodable (cache st).
Proof.
  intros Hcodec. induction 1 as
    [|st d salt now _ IH|st d now _ IH|st d u _ IH|st u now _ IH
     |st pid u _ IH].
  - intros k v e. cbn. by rewrite lookup_empty.
  - by rewrite (proj1 (register_user_state _ _ _ _)).
  - by rewrite login_user_state.
  - by rewrite add_post_cache.
  - destruct (get_posts_cache st u now) as [->|(key & rows & e & ->)];
      [done|].
    by apply cache_decodable_insert.
  - by rewrite delete_post_cache.
Qed.

Lemma add_post_fits post_data st user :
  enforces_varchar_length = true →
  posts_fit_column (db st) →
  posts_fit_column (db (add_post post_data st user).2).
Proof.
  intros Henf Hfit. unfold add_post.
  destruct (negb _); [done|].
  destruct (encode_utf8 _); [|done].
  destruct (_ <? _); [done|].
  unfold db_add_post, varchar_fits. rewrite Henf. cbn [negb orb].
  destruct (Z.leb_spec (py_len (text post_data)) COLUMN_LENGTH);
    cbn [negb]; [|done].
  destruct (negb (foreign_key_ok _ _)); [done|].
  cbn. unfold posts_fit_column. cbn.
  apply Forall_app. split; [done|]. by repeat constructor.
Qed.

Lemma delete_post_fits pid st user :
  posts_fit_column (db st) →
  posts_fit_column (db (delete_post pid st user).2).
Proof.
  intros Hfit. unfold delete_post.
  destruct (negb _); [done|].
  destruct (query_post_by_id_and_user _ _ _); [|done].
  cbn. unfold posts_fit_column. cbn.
  unfold posts_fit_column in Hfit. rewrite Forall_forall in Hfit.
  apply Forall_forall. intros q [_ Hq]%list_elem_of_filter.
  by apply Hfit.
Qed.

Lemma reachable_posts_fit st :
  enforces_varchar_length = true →
  reachable st → posts_fit_column (db st).
Proof.
  intros Henf. induction 1 as
    [|st d salt now _ IH|st d now _ IH|st d u _ IH|st u now _ IH
     |st pid u _ IH].
  - constructor.
  - unfold posts_fit_column.
    by rewrite (proj2 (register_user_state _ _ _ _)).
  - by rewrite login_user_state.
  - by apply add_post_fits.
  - by rewrite get_posts_db.
  - by apply delete_post_fits.
Qed.

(** *** C1 *)

(** C1.  In every state the service can reach, an authenticated call to
    get-posts answers with exactly the posts whose owner id is the
    caller's id, whether the cache held an entry or not: what is read from
    the cache is decoded and dropped, and the answer does not depend on
    the cache at all.  The database is left as it was. *)
Theorem get_posts_returns_owner_posts st user now :
  json_codec_ok → reachable st → dict_truthy user = true →
  (get_posts st user now).1
  = Ok (filter (λ p, post_user_id p = ud_id user) (posts (db st)))
  ∧ db (get_posts st user now).2 = db st
  ∧ (∀ t, get_current_user t now = Ok user →
       (route_get_posts t st now).1 = (get_posts st user now).1)
  ∧ (∀ st2 now2, reachable st2 → db st2 = db st →
       (get_posts st2 user now2).1 = (get_posts st user now).1).
Proof.
  intros Hcodec Hreach Huser.
  assert (Hall : ∀ s n, reachable s →
            (get_posts s user n).1
            = Ok (filter (λ p, post_user_id p = ud_id user) (posts (db s)))).
  { intros s n Hs. unfold get_posts. rewrite Huser. cbn [negb].
    pose proof (reachable_cache_decodable s Hcodec Hs) as Hdec.
    unfold redis_get.
    destruct (cache s !! cache_key_of (ud_id user)) as [[v e]|] eqn:Hk;
      [|reflexivity].
    destruct (n <? e); [|reflexivity].
    destruct v as [|a v]; [reflexivity|].
    cbn [cached_truthy from_option id].
    destruct (Hdec _ _ _ Hk) as [j ->]. reflexivity. }
  split_and!.
  - by apply Hall.
  - apply get_posts_db.
  - intros t Ht. unfold route_get_posts. by rewrite Ht.
  - intros st2 now2 Hr2 Hdb. rewrite !Hall by done. by rewrite Hdb.
Qed.

(** *** C5 *)

Lemma query_post_None s pid uid :
  query_post_by_id_and_user s pid uid = None
  ↔ ∀ p, p ∈ posts s → post_id p = pid → post_user_id p ≠ uid.
Proof.
  unfold query_post_by_id_and_user.
  rewrite (head_filter_None (λ p, post_id p = pid ∧ post_user_id p = uid)).
  rewrite Forall_forall. split.
  - intros Hall p Hp Hid Hu. by apply (Hall p Hp).
  - intros Hall p Hp [Hid Hu]. by apply (Hall p Hp).
Qed.

(** C5.  [delete_post] answers 404 "Post not found" and leaves the state
    as it was both when no post has the given id and when a post has it
    but belongs to somebody else, so that the caller cannot tell the two
    apart; and when it succeeds, a post with that id owned by the caller
    was in the table, the rows with that id are gone and nothing else has
    changed. *)
Theorem delete_post_only_by_owner pid st user :
  dict_truthy user = true →
  ((∀ p, p ∈ posts (db st) → post_id p ≠ pid) →
     delete_post pid st user
     = (Raise (HTTPException HTTP_404_NOT_FOUND "Post not found"), st)) ∧
  ((∃ p, p ∈ posts (db st) ∧ post_id p = pid) →
   (∀ p, p ∈ posts (db st) → post_id p = pid →
         post_user_id p ≠ ud_id user) →
     delete_post pid st user
     = (Raise (HTTPException HTTP_404_NOT_FOUND "Post not found"), st)) ∧
  (∀ st', delete_post pid st user = (Ok (), st') →
     (∃ p, p ∈ posts (db st) ∧ post_id p = pid
           ∧ post_user_id p = ud_id user) ∧
     posts (db st') = filter (λ p, post_id p ≠ pid) (posts (db st)) ∧
     users (db st') = users (db st) ∧
     cache st' = cache st).
Proof.
  intros Huser. unfold delete_post. rewrite Huser. cbn [negb].
  split_and!.
  - intros Habsent.
    assert (Hq : query_post_by_id_and_user (db st) pid (ud_id user) = None)
      by (apply query_post_None; intros p Hp Hid;
          destruct (Habsent p Hp Hid)).
    by rewrite Hq.
  - intros _ Hother.
    assert (Hq : query_post_by_id_and_user (db st) pid (ud_id user) = None)
      by by apply query_post_None.
    by rewrite Hq.
  - intros st'.
    destruct (query_post_by_id_and_user _ _ _) as [post|] eqn:Hq;
      [|discriminate].
    intros [= <-].
    apply (head_filter_Some
             (λ p, post_id p = pid ∧ post_user_id p = ud_id user))
      in Hq as (Hin & Hid & Hown).
    split_and!; try done.
    + by exists post.
    + cbn. by rewrite Hid.
Qed.

(** *** C8 *)

(** C8.  On a miss, get-posts writes under the key "post_user" followed by
    the caller's id the serialization of all the posts of the table,
    whoever owns them, and the entry can be read for the 5 seconds that
    follow and no longer; on a hit it writes nothing.  add-post and
    delete-post never touch the cache. *)
Theorem cache_entry_lifecycle :
  (∀ st user i now,
     dict_truthy user = true → ud_id user = Some i →
     cached_truthy
       (redis_get (cache st) ("post_user" +:+ pretty i) now) = false →
     let snapshot :=
       json_dumps (map (λ p, (post_id p, post_text p)) (posts (db st))) in
     cache (get_posts st user now).2
     = <["post_user" +:+ pretty i := (snapshot, now + 5 * 1000000)]>
         (cache st)
     ∧ ∀ t, redis_get (cache (get_posts st user now).2)
              ("post_user" +:+ pretty i) t
            = if t <? now + 5 * 1000000 then Some snapshot else None) ∧
  (∀ st user i now,
     dict_truthy user = true → ud_id user = Some i →
     cached_truthy
       (redis_get (cache st) ("post_user" +:+ pretty i) now) = true →
     (get_posts st user now).2 = st) ∧
  (∀ post_data st user, cache (add_post post_data st user).2 = cache st) ∧
  (∀ pid st user, cache (delete_post pid st user).2 = cache st).
Proof.
  split_and!.
  - intros st user i now Huser Hid Hmiss snapshot.
    unfold get_posts. rewrite Huser, Hid. cbn [negb].
    unfold cache_key_of, format_id. rewrite Hmiss.
    cbn [snd with_cache cache]. unfold redis_set, timedelta_seconds.
    split; [reflexivity|].
    intros t. unfold redis_get. by rewrite lookup_insert_eq.
  - intros st user i now Huser Hid Hhit.
    unfold get_posts. rewrite Huser, Hid. cbn [negb].
    unfold cache_key_of, format_id. rewrite Hhit.
    by destruct (json_loads _).
  - apply add_post_cache.
  - apply delete_post_cache.
Qed.

(** *** C3 *)

(** A body with more characters than the schema allows never reaches the
    handler. *)
Lemma route_add_post_validation_error t user body_text st now :
  get_current_user t now = Ok user →
  SCHEMA_MAX_LENGTH < py_len body_text →
  route_add_post t body_text st now = (Raise RequestValidationError, st).
Proof.
  intros Hauth Hchars. unfold route_add_post. rewrite Hauth.
  unfold validate_PostCreateSchema.
  apply Z.ltb_lt in Hchars. by rewrite Hchars.
Qed.

(** C3 (amended).  For an authenticated caller and a text that can be
    encoded: a text of exactly 1,048,576 UTF-8 bytes is stored, and its id
    returned, when the database does not enforce the declared length of
    the text column (and accepts the reference to the user); a text of at
    most 1,048,576 characters whose encoding is longer than 1,048,576
    bytes is refused with 413; a text of more than 1,048,576 characters is
    refused by the validation of the request body, with 422, before the
    handler runs.  A refused request changes nothing. *)
Theorem add_post_size_limit t user body_text encoded st now :
  get_current_user t now = Ok user →
  encode_utf8 body_text = Ok encoded →
  (py_len encoded = 1048576 →
   enforces_varchar_length = false →
   foreign_key_ok (db st) (ud_id user) = true →
     route_add_post t body_text st now
     = (Ok {| PostID := posts_next_id (db st); detail := "Post created" |},
        {| db := {| users := users (db st);
                    posts := posts (db st)
                             ++ [{| post_id := posts_next_id (db st);
                                    post_text := body_text;
                                    post_user_id := ud_id user |}];
                    users_next_id := users_next_id (db st);
                    posts_next_id := posts_next_id (db st) + 1 |};
           cache := cache st |})) ∧
  (1048576 < py_len encoded → py_len body_text <= 1048576 →
     route_add_post t body_text st now
     = (Raise (HTTPException 413 "Text exceeds 1MB size limit."), st)) ∧
  (1048576 < py_len body_text →
     route_add_post t body_text st now = (Raise RequestValidationError, st)
     ∧ response_status HTTP_200_OK (route_add_post t body_text st now).1
       = 422).
Proof.
  intros Hauth Henc.
  destruct (get_current_user_Ok _ _ _ Hauth) as (email & id & Hu).
  assert (Htruthy : dict_truthy user = true) by by rewrite Hu.
  pose proof (encode_utf8_length _ _ Henc) as Hle.
  unfold route_add_post. rewrite Hauth.
  unfold validate_PostCreateSchema, SCHEMA_MAX_LENGTH.
  split_and!.
  - intros Hlen Hnoenf Hfk.
    destruct (Z.ltb_spec 1048576 (py_len body_text)); [lia|].
    unfold add_post. rewrite Htruthy. cbn [negb text]. rewrite Henc.
    unfold MAX_SIZE.
    destruct (Z.ltb_spec 1048576 (py_len encoded)); [lia|].
    unfold db_add_post, varchar_fits. rewrite Hnoenf, Hfk. reflexivity.
  - intros Hbig Hchars.
    destruct (Z.ltb_spec 1048576 (py_len body_text)); [lia|].
    unfold add_post. rewrite Htruthy. cbn [negb text]. rewrite Henc.
    unfold MAX_SIZE.
    destruct (Z.ltb_spec 1048576 (py_len encoded)); [reflexivity|lia].
  - intros Hchars.
    rewrite <- (route_add_post_validation_error t user body_text st now
                  Hauth Hchars).
    unfold route_add_post. rewrite Hauth.
    unfold validate_PostCreateSchema, SCHEMA_MAX_LENGTH.
    destruct (Z.ltb_spec 1048576 (py_len body_text)); [done|lia].
Qed.

(** *** C10 *)

(** C10.  The text column is declared with length 255, more than a
    thousand times below the 1,048,576-byte limit of the handler.  When
    the database enforces declared lengths, every stored post text has at
    most 255 characters in every reachable state.  An add-post call that
    passes the size check with a text of more than 255 characters
    succeeds exactly when the database does not enforce the declared
    length; when it does, the insertion fails and nothing is stored. *)
Theorem post_text_column_bound :
  COLUMN_LENGTH = 255 ∧ 1000 * COLUMN_LENGTH <= MAX_SIZE ∧
  (enforces_varchar_length = true →
     ∀ st, reachable st → posts_fit_column (db st)) ∧
  (∀ post_data st user encoded,
     dict_truthy user = true →
     encode_utf8 (text post_data) = Ok encoded →
     py_len encoded <= MAX_SIZE →
     COLUMN_LENGTH < py_len (text post_data) →
     foreign_key_ok (db st) (ud_id user) = true →
     (is_Ok (add_post post_data st user).1 = true
      ↔ enforces_varchar_length = false)
     ∧ (enforces_varchar_length = true →
          add_post post_data st user = (Raise DataError, st))).
Proof.
  split_and!; [reflexivity|unfold COLUMN_LENGTH, MAX_SIZE; lia| |].
  - intros Henf st Hst. by apply reachable_posts_fit.
  - intros post_data st user encoded Huser Henc Hsize Hlong Hfk.
    unfold add_post. rewrite Huser, Henc. cbn [negb].
    destruct (Z.ltb_spec MAX_SIZE (py_len encoded)); [lia|].
    unfold db_add_post, varchar_fits. rewrite Hfk.
    destruct (Z.leb_spec (py_len (text post_data)) COLUMN_LENGTH); [lia|].
    destruct enforces_varchar_length; cbn; split; done.
Qed.

(** ** Further properties *)

(** *** List lemmas *)

Lemma filter_all {A} (P : A → Prop) `{∀ x, Decision (P x)} l :
  Forall P l → filter P l = l.
Proof.
  induction 1 as [|x l Hx _ IH]; [reflexivity|].
  by rewrite filter_cons_True, IH.
Qed.

Lemma filter_none {A} (P : A → Prop) `{∀ x, Decision (P x)} l :
  Forall (λ x, ¬ P x) l → filter P l = [].
Proof.
  induction 1 as [|x l Hx _ IH]; [reflexivity|].
  by rewrite filter_cons_False.
Qed.

Lemma NoDup_fmap_filter {A B} (f : A → B) (P : A → Prop)
    `{∀ x, Decision (P x)} l :
  NoDup (f <$> l) → NoDup (f <$> filter P l).
Proof.
  induction l as [|x l IH]; [done|].
  rewrite fmap_cons, NoDup_cons. intros [Hx Hl].
  rewrite filter_cons. destruct (decide (P x)); [|by apply IH].
  rewrite fmap_cons, NoDup_cons. split; [|by apply IH].
  intros (y & Hfy & Hy)%list_elem_of_fmap.
  apply list_elem_of_filter in Hy as [_ Hy].
  apply Hx. rewrite Hfy. by apply list_elem_of_fmap_2.
Qed.

Lemma NoDup_fmap_eq {A B} (f : A → B) l x y :
  NoDup (f <$> l) → x ∈ l → y ∈ l → f x = f y → x = y.
Proof.
  induction l as [|z l IH]; [by intros _ Hx; inversion Hx|].
  rewrite fmap_cons, NoDup_cons. intros [Hz Hl] Hx Hy Hf.
  apply elem_of_cons in Hx as [->|Hx]; apply elem_of_cons in Hy as [->|Hy].
  - reflexivity.
  - destruct Hz. rewrite Hf. by apply list_elem_of_fmap_2.
  - destruct Hz. rewrite <- Hf. by apply list_elem_of_fmap_2.
  - by apply IH.
Qed.

(** *** What the database calls return *)

Lemma db_add_user_inv s email password_hash user s' :
  db_add_user s email password_hash = Ok (user, s') →
  varchar_fits (str_len email) = true
  ∧ varchar_fits (str_len password_hash) = true
  ∧ Forall (λ u, user_email u ≠ email) (users s)
  ∧ user = new_user_row s email password_hash
  ∧ s' = {| users := users s ++ [user];
            posts := posts s;
            users_next_id := users_next_id s + 1;
            posts_next_id := posts_next_id s |}.
Proof.
  unfold db_add_user.
  destruct (varchar_fits (str_len email)); [|discriminate].
  destruct (varchar_fits (str_len password_hash)); [|discriminate].
  cbn [andb negb]. case_bool_decide as Hex; [discriminate|].
  intros [= <- <-]. split_and!; try done.
  apply not_Exists_Forall in Hex; [|apply _].
  eapply Forall_impl; [exact Hex|]. intros u Hu. exact Hu.
Qed.

Lemma db_add_user_fresh s email password_hash :
  varchar_fits (str_len email) = true →
  varchar_fits (str_len password_hash) = true →
  Forall (λ u, user_email u ≠ email) (users s) →
  db_add_user s email password_hash
  = Ok (new_user_row s email password_hash,
        {| users := users s ++ [new_user_row s email password_hash];
           posts := posts s;
           users_next_id := users_next_id s + 1;
           posts_next_id := posts_next_id s |}).
Proof.
  intros He Hp Hfresh. unfold db_add_user. rewrite He, Hp. cbn [andb negb].
  rewrite bool_decide_eq_false_2; [reflexivity|].
  intros Hex. apply Exists_exists in Hex as (u & Hu & Heq).
  rewrite Forall_forall in Hfresh. by apply (Hfresh u).
Qed.

Lemma db_add_post_inv s text uid post s' :
  db_add_post s text uid = Ok (post, s') →
  varchar_fits (py_len text) = true
  ∧ foreign_key_ok s uid = true
  ∧ post = new_post_row s text uid
  ∧ s' = {| users := users s;
            posts := posts s ++ [post];
            users_next_id := users_next_id s;
            posts_next_id := posts_next_id s + 1 |}.
Proof.
  unfold db_add_post.
  destruct (varchar_fits (py_len text)); [|discriminate].
  destruct (foreign_key_ok s uid); [|discriminate].
  cbn [negb]. intros [= <- <-]. done.
Qed.

(** *** What the handlers return, case by case *)

Lemma register_user_inv user_data st salt now r st' :
  register_user user_data st salt now = (r, st') →
  (st' = st ∧ ∃ e, r = Raise e)
  ∨ (∃ password_hash,
       hash_password salt (reg_password user_data) = Ok password_hash
       ∧ Forall (λ u, user_email u ≠ reg_email user_data) (users (db st))
       ∧ varchar_fits (str_len (reg_email user_data)) = true
       ∧ varchar_fits (str_len password_hash) = true
       ∧ users (db st')
         = users (db st)
           ++ [new_user_row (db st) (reg_email user_data) password_hash]
       ∧ users_next_id (db st') = users_next_id (db st) + 1
       ∧ posts (db st') = posts (db st)
       ∧ posts_next_id (db st') = posts_next_id (db st)
       ∧ cache st' = cache st
       ∧ r = (token ←! create_access_token (reg_email user_data)
                         (users_next_id (db st))
                         (Some (timedelta_minutes 20)) now;
              Ok {| access_token := token; token_type := "bearer" |})).
Proof.
  unfold register_user.
  destruct (query_user_by_email _ _) eqn:Hq.
  { intros [= <- <-]. left. eauto. }
  destruct (hash_password _ _) as [password_hash|e] eqn:Hhash.
  2:{ intros [= <- <-]. left. eauto. }
  destruct (db_add_user _ _ _) as [[user s']|e] eqn:Hadd.
  - intros [= <- <-]. right. exists password_hash.
    apply query_user_by_email_None in Hq.
    apply db_add_user_inv in Hadd as (He & Hp & _ & -> & ->).
    by split_and!.
  - intros [= <- <-]. left. eauto.
Qed.

Lemma add_post_inv post_data st user r st' :
  add_post post_data st user = (r, st') →
  (st' = st ∧ ∃ e, r = Raise e)
  ∨ (dict_truthy user = true
     ∧ (∃ encoded, encode_utf8 (text post_data) = Ok encoded
                   ∧ py_len encoded <= MAX_SIZE)
     ∧ varchar_fits (py_len (text post_data)) = true
     ∧ foreign_key_ok (db st) (ud_id user) = true
     ∧ r = Ok {| PostID := posts_next_id (db st); detail := "Post created" |}
     ∧ users (db st') = users (db st)
     ∧ users_next_id (db st') = users_next_id (db st)
     ∧ posts (db st')
       = posts (db st)
         ++ [new_post_row (db st) (text post_data) (ud_id user)]
     ∧ posts_next_id (db st') = posts_next_id (db st) + 1
     ∧ cache st' = cache st).
Proof.
  unfold add_post.
  destruct (dict_truthy user); cbn [negb];
    [|intros [= <- <-]; left; eauto].
  destruct (encode_utf8 _) as [encoded|e] eqn:Henc;
    [|intros [= <- <-]; left; eauto].
  destruct (Z.ltb_spec MAX_SIZE (py_len encoded));
    [intros [= <- <-]; left; eauto|].
  destruct (db_add_post _ _ _) as [[post s']|e] eqn:Hadd;
    [|intros [= <- <-]; left; eauto].
  intros [= <- <-]. right.
  apply db_add_post_inv in Hadd as (Hfit & Hfk & -> & ->).
  split_and!; try done. by exists encoded.
Qed.

Lemma delete_post_inv pid st user r st' :
  delete_post pid st user = (r, st') →
  (st' = st ∧ ∃ e, r = Raise e)
  ∨ (dict_truthy user = true
     ∧ r = Ok ()
     ∧ (∃ post, post ∈ posts (db st) ∧ post_id post = pid
                ∧ post_user_id post = ud_id user)
     ∧ users (db st') = users (db st)
     ∧ users_next_id (db st') = users_next_id (db st)
     ∧ posts (db st') = filter (λ p, post_id p ≠ pid) (posts (db st))
     ∧ posts_next_id (db st') = posts_next_id (db st)
     ∧ cache st' = cache st).
Proof.
  unfold delete_post.
  destruct (dict_truthy user); cbn [negb];
    [|intros [= <- <-]; left; eauto].
  destruct (query_post_by_id_and_user _ _ _) as [post|] eqn:Hq;
    [|intros [= <- <-]; left; eauto].
  intros [= <- <-]. right.
  apply (head_filter_Some
           (λ p, post_id p = pid ∧ post_user_id p = ud_id user))
    in Hq as (Hin & Hid & Hown).
  split_and!; try done.
  - by exists post.
  - cbn. by rewrite Hid.
Qed.

(** *** Keys stay unique *)

Lemma users_wf_register user_data st salt now :
  users_wf (db st) → users_wf (db (register_user user_data st salt now).2).
Proof.
  intros (Hemails & Hids & Hlt).
  destruct (register_user user_data st salt now) as [r st'] eqn:Hreg.
  apply register_user_inv in Hreg
    as [[-> _]|(h & _ & Hfresh & _ & _ & Husers & Hnext & _)]; [done|].
  cbn [snd]. unfold users_wf. rewrite Husers, Hnext, !fmap_app.
  rewrite Forall_forall in Hfresh, Hlt.
  split_and!.
  - apply NoDup_app. split_and!; [done| |apply NoDup_singleton].
    intros e (u & -> & Hu)%list_elem_of_fmap Hin.
    apply list_elem_of_singleton in Hin. by apply (Hfresh u).
  - apply NoDup_app. split_and!; [done| |apply NoDup_singleton].
    intros i (u & -> & Hu)%list_elem_of_fmap Hin.
    apply list_elem_of_singleton in Hin. cbn in Hin.
    specialize (Hlt u Hu). cbn in Hlt. lia.
  - apply Forall_app. split.
    + apply Forall_forall. intros u Hu. specialize (Hlt u Hu).
      cbn in Hlt. lia.
    + repeat constructor. cbn. lia.
Qed.

Lemma posts_wf_add_post post_data st user :
  posts_wf (db st) → posts_wf (db (add_post post_data st user).2).
Proof.
  intros (Hids & Hlt).
  destruct (add_post post_data st user) as [r st'] eqn:Hadd.
  apply add_post_inv in Hadd
    as [[-> _]|(_ & _ & _ & _ & _ & _ & _ & Hposts & Hnext & _)]; [done|].
  cbn [snd]. unfold posts_wf. rewrite Hposts, Hnext, fmap_app.
  rewrite Forall_forall in Hlt.
  split.
  - apply NoDup_app. split_and!; [done| |apply NoDup_singleton].
    intros i (p & -> & Hp)%list_elem_of_fmap Hin.
    apply list_elem_of_singleton in Hin. cbn in Hin.
    specialize (Hlt p Hp). cbn in Hlt. lia.
  - apply Forall_app. split.
    + apply Forall_forall. intros p Hp. specialize (Hlt p Hp).
      cbn in Hlt. lia.
    + repeat constructor. cbn. lia.
Qed.

Lemma posts_wf_delete_post pid st user :
  posts_wf (db st) → posts_wf (db (delete_post pid st user).2).
Proof.
  intros (Hids & Hlt).
  destruct (delete_post pid st user) as [r st'] eqn:Hdel.
  apply delete_post_inv in Hdel
    as [[-> _]|(_ & _ & _ & _ & _ & Hposts & Hnext & _)]; [done|].
  cbn [snd]. unfold posts_wf. rewrite Hposts, Hnext. split.
  - by apply NoDup_fmap_filter.
  - rewrite Forall_forall in Hlt. apply Forall_forall.
    intros p [_ Hp]%list_elem_of_filter. by apply Hlt.
Qed.

Lemma reachable_keys_unique_aux st :
  reachable st → users_wf (db st) ∧ posts_wf (db st).
Proof.
  induction 1 as
    [|st d salt now _ [IHu IHp]|st d now _ IH|st d u _ [IHu IHp]
     |st u now _ IH|st pid u _ [IHu IHp]].
  - split; [split_and!|split]; cbn; constructor.
  - split; [by apply users_wf_register|].
    destruct (register_user d st salt now) as [r st'] eqn:Hreg.
    apply register_user_inv in Hreg
      as [[-> _]|(h & _ & _ & _ & _ & _ & _ & Hposts & Hnext & _)];
      [done|].
    cbn [snd]. unfold posts_wf. by rewrite Hposts, Hnext.
  - by rewrite login_user_state.
  - split; [|by apply posts_wf_add_post].
    destruct (add_post d st u) as [r st'] eqn:Hadd.
    apply add_post_inv in Hadd
      as [[-> _]|(_ & _ & _ & _ & _ & Husers & Hnext & _)]; [done|].
    cbn [snd]. unfold users_wf. by rewrite Husers, Hnext.
  - by rewrite get_posts_db.
  - split; [|by apply posts_wf_delete_post].
    destruct (delete_post pid st u) as [r st'] eqn:Hdel.
    apply delete_post_inv in Hdel
      as [[-> _]|(_ & _ & _ & Husers & Hnext & _)]; [done|].
    cbn [snd]. unfold users_wf. by rewrite Husers, Hnext.
Qed.

(** X1.  In every state the service can reach, no two users share an
    e-mail, no two users share an id and no two posts share an id. *)
Theorem reachable_keys_unique st :
  reachable st →
  NoDup (user_email <$> users (db st))
  ∧ NoDup (user_id <$> users (db st))
  ∧ NoDup (post_id <$> posts (db st)).
Proof.
  intros [(He & Hi & _) (Hp & _)]%reachable_keys_unique_aux.
  by split_and!.
Qed.

(** *** Encoding *)

Lemma encode_char_Raise c e :
  encode_char c = Raise e → e = UnicodeEncodeError ∧ is_surrogate c = true.
Proof.
  unfold encode_char.
  destruct (_ <? _)%N; [discriminate|].
  destruct (_ <? _)%N; [discriminate|].
  destruct (is_surrogate c); [by intros [= <-]|].
  by destruct (_ <? _)%N.
Qed.

Lemma encode_utf8_Raise s e :
  encode_utf8 s = Raise e → e = UnicodeEncodeError.
Proof.
  induction s as [|c s IH]; [discriminate|].
  cbn [encode_utf8].
  destruct (encode_char c) as [b|e'] eqn:Hc; cbn [bind].
  - destruct (encode_utf8 s) as [bs|e'']; cbn [bind]; [discriminate|].
    intros [= <-]. by apply IH.
  - intros [= <-]. by apply encode_char_Raise in Hc as [-> _].
Qed.

(** *** Tokens *)

(** X2.  [get_current_user] returns an identity exactly for the tokens
    whose header names the configured algorithm, whose signature is the one
    the process-wide key gives for their payload, whose payload has a [sub]
    and an [id], and whose [exp], if there is one, is not before the
    current second; the identity returned is the payload's [sub] and
    [id]. *)
Theorem get_current_user_accepts_iff t now user :
  get_current_user t now = Ok user
  ↔ ∃ c email id,
      t = Jws ALGORITHM c (jws_sign ALGORITHM SECRET_KEY c)
      ∧ claim_sub c = Some email
      ∧ claim_id c = Some id
      ∧ (∀ e, claim_exp c = Some e → timegm_utctimetuple now <= e)
      ∧ user = {| ud_email := Some email; ud_id := Some id |}.
Proof.
  split.
  - unfold get_current_user, jwt_decode.
    destruct t as [raw|alg c sg]; [discriminate|].
    case_bool_decide as Halg; [|discriminate].
    apply list_elem_of_singleton in Halg as ->.
    case_bool_decide as Hsg; [subst sg|discriminate].
    intros Hok. exists c.
    destruct (claim_exp c) as [x|] eqn:Hexp.
    + destruct (Z.ltb_spec x (timegm_utctimetuple now)); [discriminate|].
      destruct (claim_sub c) as [email|], (claim_id c) as [id|];
        try discriminate.
      injection Hok as <-. exists email, id. split_and!; try done.
      by intros e [= <-].
    + destruct (claim_sub c) as [email|], (claim_id c) as [id|];
        try discriminate.
      injection Hok as <-. exists email, id. by split_and!.
  - intros (c & email & id & -> & Hsub & Hid & Hexp & ->).
    unfold get_current_user. rewrite jwt_decode_signed.
    destruct (claim_exp c) as [x|].
    + specialize (Hexp x eq_refl).
      destruct (Z.ltb_spec x (timegm_utctimetuple now)); [lia|].
      by rewrite Hsub, Hid.
    + by rewrite Hsub, Hid.
Qed.

(** X3.  [create_access_token] without a lifetime, or with a lifetime of
    zero, raises [TypeError]: the default it falls back on is the string
    read from the environment, which [timedelta] does not accept.  With a
    non-zero lifetime it raises [OverflowError] when the expiry falls
    outside the datetime range, and otherwise returns the signed payload
    [sub], [id], [exp] = whole seconds of [utcnow + lifetime]. *)
Theorem create_access_token_outcome email id ttl now :
  (ttl = None ∨ ttl = Some 0 →
     create_access_token email id ttl now = Raise TypeError) ∧
  (∀ d, ttl = Some d → d ≠ 0 →
     ¬ (datetime_min <= now + d <= datetime_max) →
     create_access_token email id ttl now = Raise OverflowError) ∧
  (∀ d, ttl = Some d → d ≠ 0 →
     datetime_min <= now + d <= datetime_max →
     create_access_token email id ttl now
     = Ok (Jws ALGORITHM (issued_claims email id (now + d))
             (jws_sign ALGORITHM SECRET_KEY
                (issued_claims email id (now + d))))).
Proof.
  unfold create_access_token, expires_delta_or_default,
    default_expires_delta, datetime_add.
  split_and!.
  - by intros [-> | ->].
  - intros d -> Hd Hrange.
    destruct (Z.eqb_spec d 0); [done|]. cbn [bind].
    destruct (Z.leb_spec datetime_min (now + d));
      destruct (Z.leb_spec (now + d) datetime_max); cbn; try done.
    destruct Hrange. lia.
  - intros d -> Hd [Hlo Hhi].
    destruct (Z.eqb_spec d 0); [done|]. cbn [bind].
    apply Z.leb_le in Hlo, Hhi. by rewrite Hlo, Hhi.
Qed.

(** X4.  The payload carries nothing but the e-mail, the id and the second
    of the expiry, and the signature is a function of the payload: two
    tokens issued for the same user are the same token exactly when their
    expiries fall in the same second. *)
Theorem tokens_equal_iff_same_expiry_second
    email id d1 d2 now1 now2 tok1 tok2 :
  create_access_token email id (Some d1) now1 = Ok tok1 →
  create_access_token email id (Some d2) now2 = Ok tok2 →
  tok1 = tok2
  ↔ timegm_utctimetuple (now1 + d1) = timegm_utctimetuple (now2 + d2).
Proof.
  intros (? & [= <-] & _ & ->)%create_access_token_Ok
         (? & [= <-] & _ & ->)%create_access_token_Ok.
  unfold issued_claims. split.
  - by intros [= ->].
  - by intros ->.
Qed.

(** X6.  A handler called with an empty user dictionary answers 401
    "Unauthorized" and changes nothing; behind the token dependency this
    never happens: no request to the three routes is answered 401
    "Unauthorized". *)
Theorem unauthorized_guard :
  (∀ post_data st user, dict_truthy user = false →
     add_post post_data st user = (Raise UNAUTHORIZED, st)) ∧
  (∀ st user now, dict_truthy user = false →
     get_posts st user now = (Raise UNAUTHORIZED, st)) ∧
  (∀ pid st user, dict_truthy user = false →
     delete_post pid st user = (Raise UNAUTHORIZED, st)) ∧
  (∀ t body_text st now,
     (route_add_post t body_text st now).1 ≠ Raise UNAUTHORIZED) ∧
  (∀ t st now, (route_get_posts t st now).1 ≠ Raise UNAUTHORIZED) ∧
  (∀ t pid st now, (route_delete_post t pid st now).1 ≠ Raise UNAUTHORIZED).
Proof.
  assert (Hfail : ∀ t now e,
            get_current_user t now = Raise e → e ≠ UNAUTHORIZED).
  { intros t now e [-> | ->]%get_current_user_Raise; discriminate. }
  split_and!.
  - intros post_data st user Hu. unfold add_post. by rewrite Hu.
  - intros st user now Hu. unfold get_posts. by rewrite Hu.
  - intros pid st user Hu. unfold delete_post. by rewrite Hu.
  - intros t body_text st now. unfold route_add_post.
    destruct (get_current_user t now) as [user|e] eqn:Hg.
    + apply get_current_user_Ok in Hg as (email & id & ->).
      unfold validate_PostCreateSchema.
      destruct (_ <? _); [discriminate|].
      unfold add_post. cbn [dict_truthy ud_email ud_id negb text].
      destruct (encode_utf8 _) as [encoded|e] eqn:Henc; cbn [fst].
      * destruct (_ <? _); [discriminate|].
        unfold db_add_post.
        destruct (negb (varchar_fits _)); [discriminate|].
        by destruct (negb (foreign_key_ok _ _)).
      * apply encode_utf8_Raise in Henc as ->. discriminate.
    + cbn [fst]. intros [= ->]. by apply (Hfail t now UNAUTHORIZED).
  - intros t st now. unfold route_get_posts.
    destruct (get_current_user t now) as [user|e] eqn:Hg.
    + apply get_current_user_Ok in Hg as (email & id & ->).
      unfold get_posts. cbn [dict_truthy ud_email ud_id negb].
      destruct (cached_truthy _); [|discriminate].
      by destruct (json_loads _).
    + cbn [fst]. intros [= ->]. by apply (Hfail t now UNAUTHORIZED).
  - intros t pid st now. unfold route_delete_post.
    destruct (get_current_user t now) as [user|e] eqn:Hg.
    + apply get_current_user_Ok in Hg as (email & id & ->).
      unfold delete_post. cbn [dict_truthy ud_email ud_id negb].
      by destruct (query_post_by_id_and_user _ _ _).
    + cbn [fst]. intros [= ->]. by apply (Hfail t now UNAUTHORIZED).
Qed.

(** *** Registration and login *)

Lemma create_access_token_Raise email id d now e :
  d ≠ 0 →
  create_access_token email id (Some d) now = Raise e → e = OverflowError.
Proof.
  intros Hd. unfold create_access_token, expires_delta_or_default.
  destruct (Z.eqb_spec d 0); [done|]. cbn [bind]. unfold datetime_add.
  destruct (_ && _); cbn [bind]; [discriminate|]. by intros [= <-].
Qed.

(** X7.  Registering an e-mail that no user has, with a password the
    hash function accepts, values the columns accept and a clock 20 minutes
    short of the end of the datetime range, succeeds: exactly one row is
    appended to the users table, with the next id, the e-mail and the hash
    of the password; posts and cache are left alone; and the answer is a
    bearer token whose payload names that row. *)
Theorem register_user_fresh_email user_data st salt now password_hash :
  (∀ u, u ∈ users (db st) → user_email u ≠ reg_email user_data) →
  hash_password salt (reg_password user_data) = Ok password_hash →
  varchar_fits (str_len (reg_email user_data)) = true →
  varchar_fits (str_len password_hash) = true →
  datetime_min <= now + timedelta_minutes 20 <= datetime_max →
  let row := new_user_row (db st) (reg_email user_data) password_hash in
  let payload := issued_claims (reg_email user_data) (users_next_id (db st))
                   (now + timedelta_minutes 20) in
  register_user user_data st salt now
  = (Ok {| access_token :=
             Jws ALGORITHM payload (jws_sign ALGORITHM SECRET_KEY payload);
           token_type := "bearer" |},
     {| db := {| users := users (db st) ++ [row];
                 posts := posts (db st);
                 users_next_id := users_next_id (db st) + 1;
                 posts_next_id := posts_next_id (db st) |};
        cache := cache st |}).
Proof.
  intros Hfresh Hhash He Hp Hrange row payload.
  apply Forall_forall in Hfresh.
  unfold register_user.
  rewrite (proj2 (query_user_by_email_None _ _) Hfresh), Hhash.
  rewrite (db_add_user_fresh _ _ _ He Hp Hfresh).
  cbn [new_user_row user_email user_id].
  by rewrite (create_access_token_20_minutes _ _ _ Hrange).
Qed.

(** X8.  After a registration that succeeded, a login with the same e-mail
    and password succeeds, provided the password verifies against the hash
    that was made of it: it changes nothing and returns a token for the
    same e-mail and the same user id as the token of the registration. *)
Theorem login_after_register user_data st salt now tok st' now' :
  (∀ password_hash,
     pwd_context_hash salt (reg_password user_data) = Ok password_hash →
     pwd_context_verify (reg_password user_data) password_hash = Ok true) →
  register_user user_data st salt now = (Ok tok, st') →
  datetime_min <= now' + timedelta_minutes 20 <= datetime_max →
  let uid := users_next_id (db st) in
  let payload := issued_claims (reg_email user_data) uid
                   (now + timedelta_minutes 20) in
  let payload' := issued_claims (reg_email user_data) uid
                    (now' + timedelta_minutes 20) in
  access_token tok
  = Jws ALGORITHM payload (jws_sign ALGORITHM SECRET_KEY payload)
  ∧ login_user {| login_email := reg_email user_data;
                  login_password := reg_password user_data |} st' now'
    = (Ok {| access_token :=
               Jws ALGORITHM payload'
                 (jws_sign ALGORITHM SECRET_KEY payload');
             token_type := "bearer" |}, st').
Proof.
  intros Hverify Hreg Hrange uid payload payload'.
  apply register_user_inv in Hreg
    as [(_ & e & [=])
       |(h & Hhash & Hfresh & _ & _ & Husers & _ & _ & _ & _ & Hr)].
  destruct (create_access_token _ _ _ _) as [t|e] eqn:Htok;
    cbn [bind] in Hr; [|discriminate].
  injection Hr as ->. cbn [access_token].
  apply create_access_token_Ok in Htok as (d & [= <-] & _ & ->).
  split; [reflexivity|].
  specialize (Hverify h Hhash).
  unfold login_user, authenticate_user, query_user_by_email.
  cbn [login_email login_password].
  rewrite Husers, filter_app.
  rewrite (filter_none (λ u, user_email u = reg_email user_data))
    by exact Hfresh.
  rewrite filter_cons_True by reflexivity. cbn [app head].
  cbn [filter list_filter new_user_row user_password_hash].
  unfold verify_password. rewrite Hverify. cbn [bind negb].
  cbn [user_email user_id].
  by rewrite (create_access_token_20_minutes _ _ _ Hrange).
Qed.

(** X9.  [login_user] returns a token only when a stored user has the
    e-mail and the password verifies against that user's stored hash; the
    token then names that user, and the state is as it was. *)
Theorem login_user_requires_password user_data st now tok st' :
  login_user user_data st now = (Ok tok, st') →
  st' = st
  ∧ ∃ user,
      user ∈ users (db st)
      ∧ user_email user = login_email user_data
      ∧ verify_password (login_password user_data)
          (user_password_hash user) = Ok true
      ∧ access_token tok
        = Jws ALGORITHM
            (issued_claims (user_email user) (user_id user)
               (now + timedelta_minutes 20))
            (jws_sign ALGORITHM SECRET_KEY
               (issued_claims (user_email user) (user_id user)
                  (now + timedelta_minutes 20))).
Proof.
  unfold login_user.
  destruct (authenticate_user _ _ _) as [[user|]|e] eqn:Ha;
    [|discriminate..].
  destruct (create_access_token _ _ _ _) as [t|e] eqn:Htok;
    cbn [bind]; [|discriminate].
  intros [= <- <-]. split; [done|].
  apply authenticate_user_Some in Ha as (Hin & He & Hv).
  apply create_access_token_Ok in Htok as (d & [= <-] & _ & ->).
  exists user. by split_and!.
Qed.

(** X10.  A call that raises leaves the database and the cache exactly as
    they were, for add-post, delete-post, get-posts and login.  For
    register the same holds except in one case: the token is created after
    the commit, so when its creation overflows the datetime range the
    request fails although the user has been stored. *)
Theorem failed_calls_change_nothing :
  (∀ post_data st user e st',
     add_post post_data st user = (Raise e, st') → st' = st) ∧
  (∀ pid st user e st',
     delete_post pid st user = (Raise e, st') → st' = st) ∧
  (∀ st user now e st',
     get_posts st user now = (Raise e, st') → st' = st) ∧
  (∀ user_data st now e st',
     login_user user_data st now = (Raise e, st') → st' = st) ∧
  (∀ user_data st salt now e st',
     register_user user_data st salt now = (Raise e, st') →
     st' = st
     ∨ (e = OverflowError
        ∧ ∃ password_hash,
            hash_password salt (reg_password user_data) = Ok password_hash
            ∧ users (db st')
              = users (db st)
                ++ [new_user_row (db st) (reg_email user_data)
                      password_hash])).
Proof.
  split_and!.
  - intros post_data st user e st' H.
    by apply add_post_inv in H as [[-> _]|(_ & _ & _ & _ & [=] & _)].
  - intros pid st user e st' H.
    by apply delete_post_inv in H as [[-> _]|(_ & [=] & _)].
  - intros st user now e st'. unfold get_posts.
    destruct (negb _); [by intros [= _ <-]|].
    destruct (cached_truthy _); [|discriminate].
    destruct (json_loads _); [discriminate|]. by intros [= _ <-].
  - intros user_data st now e st' H.
    rewrite <- (login_user_state user_data st now). by rewrite H.
  - intros user_data st salt now e st' H.
    apply register_user_inv in H
      as [[-> _]
         |(h & Hhash & _ & _ & _ & Husers & _ & _ & _ & _ & Hr)];
      [by left|].
    right. split; [|by exists h].
    destruct (create_access_token _ _ _ _) as [t|e'] eqn:Htok;
      cbn [bind] in Hr; [discriminate|].
    injection Hr as ->.
    by apply create_access_token_Raise in Htok.
Qed.

(** *** Posts *)


Lemma filter_filter_within {A} (P Q : A → Prop)
    `{∀ x, Decision (P x)} `{∀ x, Decision (Q x)} (l : list A) :
  (∀ x, x ∈ l → P x → Q x) → filter P (filter Q l) = filter P l.
Proof.
  induction l as [|x l IH]; [done|]. intros Himp.
  assert (IH' : filter P (filter Q l) = filter P l).
  { apply IH. intros y Hy. apply Himp. by right. }
  rewrite (filter_cons Q). destruct (decide (Q x)) as [Hq|Hq].
  - by rewrite !filter_cons, IH'.
  - rewrite IH'. rewrite filter_cons_False; [done|].
    intros Hp. apply Hq, Himp; [left|done].
Qed.


(** X12.  In a reachable state, the post that an add-post has just created
    can be deleted by its author with the id that was returned, and the
    posts table is then what it was before the two calls; users and cache
    have not changed either. *)
Theorem delete_after_add post_data st user r st' :
  reachable st →
  add_post post_data st user = (Ok r, st') →
  ∃ st'',
    delete_post (PostID r) st' user = (Ok (), st'')
    ∧ posts (db st'') = posts (db st)
    ∧ users (db st'') = users (db st)
    ∧ cache st'' = cache st.
Proof.
  intros Hreach Hadd.
  destruct (reachable_keys_unique_aux st Hreach) as [_ [_ Hlt]].
  apply add_post_inv in Hadd
    as [(_ & e & [=])
       |(Huser & _ & _ & _ & [= ->] & Husers & _ & Hposts & _ & Hcache)].
  cbn [PostID].
  assert (Hfresh : Forall (λ p, post_id p ≠ posts_next_id (db st))
                     (posts (db st))).
  { eapply Forall_impl; [exact Hlt|]. cbn. intros p Hp. lia. }
  eexists. unfold delete_post. rewrite Huser. cbn [negb].
  unfold query_post_by_id_and_user. rewrite Hposts, filter_app.
  rewrite (filter_none
             (λ p, post_id p = posts_next_id (db st)
                   ∧ post_user_id p = ud_id user)).
  2:{ eapply Forall_impl; [exact Hfresh|]. cbn. by intros p Hp [Hid _]. }
  rewrite filter_cons_True by done. cbn [app head filter list_filter].
  split; [reflexivity|].
  cbn [db with_db db_delete_post posts users cache new_post_row post_id].
  rewrite Hposts, filter_app, (filter_all _ _ Hfresh).
  rewrite filter_cons_False by (cbn; intros Hne; by apply Hne).
  by rewrite app_nil_r.
Qed.

(** X13.  In a reachable state a delete-post that succeeds removes one
    post, which has the given id and belongs to the caller, and no other:
    every other post stays, and what any user with another id would list
    is unchanged. *)
Theorem delete_post_removes_only_own_post pid st user st' :
  reachable st →
  delete_post pid st user = (Ok (), st') →
  ∃ post,
    post ∈ posts (db st)
    ∧ post_id post = pid
    ∧ post_user_id post = ud_id user
    ∧ (∀ p, p ∈ posts (db st') ↔ p ∈ posts (db st) ∧ p ≠ post)
    ∧ (∀ uid, uid ≠ ud_id user →
         filter (λ p, post_user_id p = uid) (posts (db st'))
         = filter (λ p, post_user_id p = uid) (posts (db st))).
Proof.
  intros Hreach Hdel.
  destruct (reachable_keys_unique_aux st Hreach) as [_ [Hids _]].
  apply delete_post_inv in Hdel
    as [(_ & e & [=])
       |(_ & _ & (post & Hin & Hid & Hown) & _ & _ & Hposts & _)].
  exists post. split_and!; try done.
  - intros p. rewrite Hposts, list_elem_of_filter. split.
    + intros [Hne Hp]. split; [done|]. intros ->. by apply Hne.
    + intros [Hp Hne]. split; [|done]. intros Hsame. apply Hne.
      apply (NoDup_fmap_eq post_id (posts (db st))); try done.
      by rewrite Hid.
  - intros uid Hne. rewrite Hposts.
    apply filter_filter_within. intros p Hp Hu Hsame.
    assert (p = post).
    { apply (NoDup_fmap_eq post_id (posts (db st))); try done.
      by rewrite Hid. }
    subst p. apply Hne. by rewrite <- Hu, Hown.
Qed.


Lemma encode_char_encodable c :
  is_surrogate c = false →
  ∃ b, encode_char c = Ok b ∧ 1 <= py_len b <= 4.
Proof.
  intros Hc. unfold encode_char. rewrite Hc.
  destruct (_ <? _)%N; [eexists; split; [reflexivity|by vm_compute]|].
  destruct (_ <? _)%N; [eexists; split; [reflexivity|by vm_compute]|].
  destruct (_ <? _)%N; eexists; (split; [reflexivity|by vm_compute]).
Qed.

Lemma encode_char_surrogate c :
  is_surrogate c = true → encode_char c = Raise UnicodeEncodeError.
Proof.
  intros Hc. unfold encode_char. rewrite Hc.
  unfold is_surrogate in Hc. apply andb_true_iff in Hc as [Hlo _].
  apply N.leb_le in Hlo.
  destruct (N.ltb_spec c 0x80); [lia|].
  destruct (N.ltb_spec c 0x800); [lia|]. reflexivity.
Qed.

Lemma encode_utf8_encodable s :
  Forall (λ c, is_surrogate c = false) s →
  ∃ encoded, encode_utf8 s = Ok encoded
             ∧ py_len s <= py_len encoded <= 4 * py_len s.
Proof.
  induction 1 as [|c s Hc _ (encoded & IH & Hlen)].
  - exists []. split; [reflexivity|]. unfold py_len. cbn. lia.
  - destruct (encode_char_encodable c Hc) as (b & Hb & Hblen).
    exists (b ++ encoded). cbn [encode_utf8]. rewrite Hb, IH. cbn [bind].
    split; [reflexivity|]. rewrite py_len_cons, py_len_app. lia.
Qed.

Lemma encode_utf8_surrogate s :
  Exists (λ c, is_surrogate c = true) s →
  encode_utf8 s = Raise UnicodeEncodeError.
Proof.
  induction 1 as [c s Hc|c s _ IH]; cbn [encode_utf8].
  - by rewrite (encode_char_surrogate c Hc).
  - rewrite IH. destruct (encode_char c) as [b|e] eqn:Hb; [reflexivity|].
    cbn [bind]. by apply encode_char_Raise in Hb as [-> _].
Qed.

(** X15.  What [add_post] itself does with the size of a text, for a
    non-empty user dictionary.  A text with a lone surrogate cannot be
    encoded: the call raises [UnicodeEncodeError] and stores nothing.  A
    text without surrogates of more than 1,048,576 characters is refused
    with 413 whatever its characters, and one of at most 262,144 characters
    is never refused with 413, since a character takes between one and four
    bytes. *)
Theorem add_post_text_bounds post_data st user :
  dict_truthy user = true →
  (Exists (λ c, is_surrogate c = true) (text post_data) →
     add_post post_data st user = (Raise UnicodeEncodeError, st)) ∧
  (Forall (λ c, is_surrogate c = false) (text post_data) →
   1048576 < py_len (text post_data) →
     add_post post_data st user = (Raise TOO_LARGE, st)) ∧
  (Forall (λ c, is_surrogate c = false) (text post_data) →
   py_len (text post_data) <= 262144 →
     (add_post post_data st user).1 ≠ Raise TOO_LARGE).
Proof.
  intros Huser. unfold add_post. rewrite Huser. cbn [negb].
  split_and!.
  - intros Hsur. by rewrite (encode_utf8_surrogate _ Hsur).
  - intros Hok Hlong.
    destruct (encode_utf8_encodable _ Hok) as (encoded & -> & Hlen).
    unfold MAX_SIZE.
    destruct (Z.ltb_spec 1048576 (py_len encoded)); [reflexivity|lia].
  - intros Hok Hshort.
    destruct (encode_utf8_encodable _ Hok) as (encoded & -> & Hlen).
    unfold MAX_SIZE.
    destruct (Z.ltb_spec 1048576 (py_len encoded)); [lia|].
    unfold db_add_post.
    destruct (negb (varchar_fits _)); [discriminate|].
    by destruct (negb (foreign_key_ok _ _)).
Qed.

(** X16.  The token returned by a registration lets the new user post for
    the 20 minutes that follow: with it, add-post of a text that passes the
    size check and fits the column is accepted whether or not the database
    enforces foreign keys, since the user row exists, and the post is
    stored under the new user's id. *)
Theorem registered_user_can_post
    user_data st salt now tok st1 body_text encoded t :
  register_user user_data st salt now = (Ok tok, st1) →
  timegm_utctimetuple t <= timegm_utctimetuple now + 1200 →
  encode_utf8 body_text = Ok encoded →
  py_len encoded <= MAX_SIZE →
  varchar_fits (py_len body_text) = true →
  ∃ st2,
    route_add_post (access_token tok) body_text st1 t
    = (Ok {| PostID := posts_next_id (db st); detail := "Post created" |},
       st2)
    ∧ posts (db st2)
      = posts (db st)
        ++ [{| post_id := posts_next_id (db st);
               post_text := body_text;
               post_user_id := Some (users_next_id (db st)) |}]
    ∧ users (db st2) = users (db st1)
    ∧ cache st2 = cache st.
Proof.
  intros Hreg Htime Henc Hsize Hfit.
  apply register_user_inv in Hreg
    as [(_ & e & [=])
       |(h & _ & _ & _ & _ & Husers & _ & Hposts & Hnext & Hcache & Hr)].
  destruct (create_access_token _ _ _ _) as [tk|e] eqn:Htok;
    cbn [bind] in Hr; [|discriminate].
  injection Hr as ->. cbn [access_token].
  apply create_access_token_Ok in Htok as (d & [= <-] & _ & ->).
  pose proof (encode_utf8_length _ _ Henc) as Hchars.
  unfold route_add_post. rewrite get_current_user_issued.
  rewrite timegm_add_20_minutes.
  destruct (Z.ltb_spec (timegm_utctimetuple now + 1200)
              (timegm_utctimetuple t)); [lia|].
  unfold validate_PostCreateSchema, SCHEMA_MAX_LENGTH.
  unfold MAX_SIZE in Hsize.
  destruct (Z.ltb_spec 1048576 (py_len body_text)); [lia|].
  unfold add_post. cbn [dict_truthy ud_email ud_id negb text].
  rewrite Henc. unfold MAX_SIZE.
  destruct (Z.ltb_spec 1048576 (py_len encoded)); [lia|].
  unfold db_add_post. rewrite Hfit. cbn [negb].
  assert (Hfk : foreign_key_ok (db st1) (Some (users_next_id (db st)))
                = true).
  { unfold foreign_key_ok, user_exists. apply orb_true_iff. right.
    apply bool_decide_eq_true_2, Exists_exists.
    eexists. split; [rewrite Husers; apply elem_of_app; right; left|].
    reflexivity. }
  rewrite Hfk. cbn [negb]. rewrite <- Hnext, <- Hposts, <- Hcache.
  eexists. split; [reflexivity|]. done.
Qed.

(** *** Cache *)

(** X17.  A get-posts call writes at most the cache entry of its caller:
    every other key keeps its entry, and the entries of users with another
    id in particular, since the keys of two different ids are different. *)
Theorem get_posts_writes_only_own_key st user now i :
  ud_id user = Some i →
  (∀ key, key ≠ "post_user" +:+ pretty i →
     cache (get_posts st user now).2 !! key = cache st !! key)
  ∧ (∀ j, j ≠ i →
       "post_user" +:+ pretty j ≠ "post_user" +:+ pretty i
       ∧ cache (get_posts st user now).2 !! ("post_user" +:+ pretty j)
         = cache st !! ("post_user" +:+ pretty j)).
Proof.
  intros Hid.
  assert (Hkeys : ∀ key, key ≠ "post_user" +:+ pretty i →
            cache (get_posts st user now).2 !! key = cache st !! key).
  { intros key Hkey. unfold get_posts.
    destruct (negb _); [done|]. rewrite Hid.
    unfold cache_key_of, format_id.
    destruct (cached_truthy _).
    - by destruct (json_loads _).
    - cbn. unfold redis_set. by rewrite lookup_insert_ne. }
  split; [exact Hkeys|].
  intros j Hj.
  assert (Hne : "post_user" +:+ pretty j ≠ "post_user" +:+ pretty i).
  { intros Heq. apply Hj.
    apply (inj (String.app "post_user")) in Heq.
    by apply (inj pretty) in Heq. }
  split; [exact Hne|]. by apply Hkeys.
Qed.

(** X18.  The entry written on a miss serves the caller for five seconds
    and is not renewed by being read: a later get-posts of the same user
    before the expiry instant is a hit that leaves the state as it is; one
    at or after the expiry instant is a miss again, which writes the
    current posts with a new expiry five seconds on. *)
Theorem cache_entry_serves_five_seconds st user i t0 t :
  (∀ rows, json_dumps rows ≠ "") →
  dict_truthy user = true →
  ud_id user = Some i →
  cached_truthy (redis_get (cache st) ("post_user" +:+ pretty i) t0)
  = false →
  (t < t0 + 5 * 1000000 →
     (get_posts (get_posts st user t0).2 user t).2
     = (get_posts st user t0).2) ∧
  (t0 + 5 * 1000000 <= t →
     cache (get_posts (get_posts st user t0).2 user t).2
     = <["post_user" +:+ pretty i :=
           (json_dumps (map (λ p, (post_id p, post_text p))
                          (posts (db st))),
            t + 5 * 1000000)]> (cache (get_posts st user t0).2)).
Proof.
  intros Hnonempty Huser Hid Hmiss.
  assert (Hst1 : (get_posts st user t0).2
                 = with_cache st
                     (redis_set (cache st) ("post_user" +:+ pretty i)
                        (json_dumps (posts_data_of (posts (db st)))) 5 t0)).
  { unfold get_posts. rewrite Huser, Hid. cbn [negb].
    unfold cache_key_of, format_id. by rewrite Hmiss. }
  rewrite Hst1.
  assert (Hget : ∀ t', redis_get
            (redis_set (cache st) ("post_user" +:+ pretty i)
               (json_dumps (posts_data_of (posts (db st)))) 5 t0)
            ("post_user" +:+ pretty i) t'
          = if t' <? t0 + 5 * 1000000
            then Some (json_dumps (posts_data_of (posts (db st))))
            else None).
  { intros t'. unfold redis_get, redis_set, timedelta_seconds.
    by rewrite lookup_insert_eq. }
  split.
  - intros Hbefore. unfold get_posts. rewrite Huser, Hid. cbn [negb].
    unfold cache_key_of, format_id. cbn [cache with_cache].
    rewrite Hget. apply Z.ltb_lt in Hbefore. rewrite Hbefore.
    destruct (json_dumps _) as [|a v] eqn:Hd; [by destruct (Hnonempty _ Hd)|].
    cbn [cached_truthy from_option id].
    by destruct (json_loads _).
  - intros Hafter. unfold get_posts. rewrite Huser, Hid. cbn [negb].
    unfold cache_key_of, format_id. cbn [cache with_cache].
    rewrite Hget.
    destruct (Z.ltb_spec t (t0 + 5 * 1000000)); [lia|].
    cbn [cached_truthy snd cache with_cache db].
    unfold redis_set at 1, timedelta_seconds. reflexivity.
Qed.

(** X19.  In a reachable state [authenticate_user] returns a user exactly
    when that user is stored with the given e-mail and the password
    verifies against the stored hash; as e-mails are unique there is at
    most one such user. *)
Theorem authenticate_user_iff st email password user :
  reachable st →
  authenticate_user email password (db st) = Ok (Some user)
  ↔ user ∈ users (db st)
    ∧ user_email user = email
    ∧ verify_password password (user_password_hash user) = Ok true.
Proof.
  intros Hreach. split; [apply authenticate_user_Some|].
  intros (Hin & He & Hv).
  destruct (reachable_keys_unique_aux st Hreach) as [(Hemails & _) _].
  unfold authenticate_user.
  destruct (query_user_by_email (db st) email) as [u|] eqn:Hq.
  - apply query_user_by_email_Some in Hq as [Hu Hue].
    assert (u = user) as ->.
    { apply (NoDup_fmap_eq user_email (users (db st))); try done.
      by rewrite Hue, He. }
    by rewrite Hv.
  - apply query_user_by_email_None in Hq. rewrite Forall_forall in Hq.
    by destruct (Hq user Hin).
Qed.

End Backend.

(** ** The model at concrete requests

    The handlers instantiated with the stand-ins of [Sample], a database
    that enforces neither declared lengths nor foreign keys, and a few
    requests. *)

Abbreviation s_issue :=
  (create_access_token Sample.sign Sample.SECRET_KEY Sample.ALGORITHM None).
Abbreviation s_current_user :=
  (get_current_user Sample.sign Sample.SECRET_KEY Sample.ALGORITHM).
Abbreviation s_register :=
  (register_user Sample.sign Sample.SECRET_KEY Sample.ALGORITHM None
     Sample.pwd_hash false).
Abbreviation s_login :=
  (login_user Sample.sign Sample.SECRET_KEY Sample.ALGORITHM None
     Sample.pwd_verify).
Abbreviation s_add_post := (add_post false false).
Abbreviation s_route_add_post :=
  (route_add_post Sample.sign Sample.SECRET_KEY Sample.ALGORITHM false false).
Abbreviation s_get_posts := (get_posts string Sample.dumps Sample.loads).
Abbreviation s_reachable :=
  (reachable Sample.sign Sample.SECRET_KEY Sample.ALGORITHM None
     Sample.pwd_hash Sample.pwd_verify string Sample.dumps Sample.loads
     false false).

Abbreviation alice := {| ud_email := Some "a@x.com"; ud_id := Some 1 |}.
Abbreviation bob := {| ud_email := Some "b@x.com"; ud_id := Some 2 |}.
Abbreviation alice_row :=
  {| user_id := 1; user_email := "a@x.com"; user_password_hash := "pw$s" |}.
Abbreviation hello := [104; 101; 108; 108; 111]%N.
Abbreviation hello_row :=
  {| post_id := 1; post_text := hello; post_user_id := Some 1 |}.

(** After [register a@x.com pw]. *)
Abbreviation st_registered :=
  (s_register {| reg_email := "a@x.com"; reg_password := "pw" |}
     empty_state "s" 0).2.
(** ... then [add-post hello] by that user. *)
Abbreviation st_posted := (s_add_post {| text := hello |} st_registered alice).2.
(** ... then [get-posts] by that user at second 10, which fills the cache. *)
Abbreviation st_listed := (s_get_posts st_posted alice 10000000).2.

(** Alice's token, issued at time 0 for 20 minutes. *)
Abbreviation alice_claims :=
  {| claim_sub := Some "a@x.com"; claim_id := Some 1; claim_exp := Some 1200 |}.
Abbreviation alice_token :=
  (Jws "HS256" alice_claims (Sample.sign "HS256" "k1" alice_claims)).

(** A text of [2^20 = 1,048,576] letters, and one letter more. *)
Abbreviation one_megabyte := (repeat_pow2 20 [97%N]).
Abbreviation one_megabyte_and_one := (97%N :: repeat_pow2 20 [97%N]).
(** A text of [2^20] two-byte characters, 2,097,152 bytes. *)
Abbreviation two_byte_megabyte := (repeat_pow2 20 [233%N]).

Lemma sample_codec_ok : json_codec_ok string Sample.dumps Sample.loads.
Proof.
  intros rows. unfold Sample.loads, Sample.dumps. cbn.
  destruct (String.concat _ _ +:+ "]"); cbn; eauto.
Defined.

Lemma st_listed_reachable : s_reachable st_listed.
Proof. repeat constructor. Defined.

Lemma one_megabyte_ascii : encode_utf8 one_megabyte = Ok one_megabyte.
Proof.
  apply encode_utf8_ascii, Forall_repeat_pow2.
  repeat constructor.
Defined.

Lemma one_megabyte_len : py_len one_megabyte = 1048576.
Proof. rewrite py_len_repeat_pow2. reflexivity. Defined.

Lemma one_megabyte_and_one_ascii :
  encode_utf8 one_megabyte_and_one = Ok one_megabyte_and_one.
Proof.
  apply encode_utf8_ascii. constructor; [reflexivity|].
  apply Forall_repeat_pow2. repeat constructor.
Defined.

Lemma one_megabyte_and_one_len : py_len one_megabyte_and_one = 1048577.
Proof. rewrite py_len_cons, py_len_repeat_pow2. reflexivity. Defined.

(** *** C1 *)

Lemma get_posts_returns_owner_posts_witness :
  json_codec_ok string Sample.dumps Sample.loads
  ∧ s_reachable st_listed
  ∧ dict_truthy alice = true
  ∧ (s_get_posts st_listed alice 11000000).1 = Ok [hello_row].
Proof.
  split_and!;
    [exact sample_codec_ok | exact st_listed_reachable | reflexivity |].
  rewrite (proj1 (get_posts_returns_owner_posts
                    Sample.sign Sample.SECRET_KEY Sample.ALGORITHM None
                    Sample.pwd_hash Sample.pwd_verify string Sample.dumps
                    Sample.loads false false st_listed alice 11000000
                    sample_codec_ok st_listed_reachable eq_refl)).
  reflexivity.
Defined.

(** *** C2 *)

Lemma issued_token_round_trip_witness :
  s_issue "a@x.com" 1 (Some (timedelta_minutes 20)) 0 = Ok alice_token
  ∧ s_current_user alice_token 600000000 = Ok alice
  ∧ s_current_user alice_token 1200999999 = Ok alice
  ∧ s_current_user alice_token 1201000000 = Raise TOKEN_EXPIRED.
Proof.
  assert (Hissue : s_issue "a@x.com" 1 (Some (timedelta_minutes 20)) 0
                   = Ok alice_token) by reflexivity.
  destruct (issued_token_round_trip _ _ _ _ _ _ _ _ _ Hissue)
    as (delta & c & sg & [= <-] & _ & _ & Hbefore & Hsecond & _ & Hafter).
  split_and!;
    [exact Hissue | apply Hbefore | apply Hsecond | apply Hafter];
    by vm_compute.
Defined.

(** The token issued at time 0 for 20 minutes expires at second 1200; at
    1200.999999 seconds, after its expiration, it is still accepted. *)
Lemma token_accepted_after_expiration :
  s_issue "a@x.com" 1 (Some (timedelta_minutes 20)) 0 = Ok alice_token
  ∧ 0 + timedelta_minutes 20 < 1200999999
  ∧ s_current_user alice_token 1200999999 = Ok alice
  ∧ s_current_user alice_token 1200999999 ≠ Raise TOKEN_EXPIRED.
Proof. split_and!; [reflexivity|reflexivity|reflexivity|discriminate]. Qed.

(** *** C3 *)

(** A text of 1,048,577 ASCII characters is 1,048,577 UTF-8 bytes long, and
    an authenticated add-post with it is answered 422, not 413. *)
Lemma add_post_one_byte_over_is_422 :
  encode_utf8 one_megabyte_and_one = Ok one_megabyte_and_one
  ∧ py_len one_megabyte_and_one = 1048577
  ∧ s_current_user alice_token 0 = Ok alice
  ∧ s_route_add_post alice_token one_megabyte_and_one st_registered 0
    = (Raise RequestValidationError, st_registered)
  ∧ response_status HTTP_200_OK
      (s_route_add_post alice_token one_megabyte_and_one st_registered 0).1
    = 422.
Proof.
  assert (Hauth : s_current_user alice_token 0 = Ok alice) by reflexivity.
  assert (Hroute :
    s_route_add_post alice_token one_megabyte_and_one st_registered 0
    = (Raise RequestValidationError, st_registered)).
  { apply (route_add_post_validation_error _ _ _ _ _ _ alice _ _ _ Hauth).
    rewrite one_megabyte_and_one_len. reflexivity. }
  split_and!;
    [exact one_megabyte_and_one_ascii | exact one_megabyte_and_one_len
    | exact Hauth | exact Hroute |].
  exact (f_equal (λ r, response_status HTTP_200_OK r.1) Hroute).
Qed.

Lemma add_post_size_limit_witness :
  s_current_user alice_token 0 = Ok alice
  ∧ encode_utf8 one_megabyte = Ok one_megabyte
  ∧ py_len one_megabyte = 1048576
  ∧ foreign_key_ok false (db st_registered) (ud_id alice) = true
  ∧ (s_route_add_post alice_token one_megabyte st_registered 0).1
    = Ok {| PostID := 1; detail := "Post created" |}
  ∧ py_len two_byte_megabyte <= 1048576
  ∧ (∃ encoded, encode_utf8 two_byte_megabyte = Ok encoded
                ∧ py_len encoded = 2097152)
  ∧ s_route_add_post alice_token two_byte_megabyte st_registered 0
    = (Raise (HTTPException 413 "Text exceeds 1MB size limit."),
       st_registered).
Proof.
  assert (Hchars : py_len two_byte_megabyte <= 1048576).
  { rewrite py_len_repeat_pow2. by vm_compute. }
  destruct (encode_utf8_two_byte two_byte_megabyte) as (encoded & Henc & Hlen).
  { apply Forall_repeat_pow2. constructor; [|constructor].
    split; [discriminate|reflexivity]. }
  rewrite py_len_repeat_pow2 in Hlen.
  change (2 * (2 ^ Z.of_nat 20 * py_len [233%N])) with 2097152 in Hlen.
  split_and!;
    [reflexivity | exact one_megabyte_ascii | exact one_megabyte_len
    | reflexivity | | exact Hchars
    | exists encoded; split; [exact Henc|exact Hlen] |].
  - rewrite (proj1 (add_post_size_limit
                      Sample.sign Sample.SECRET_KEY Sample.ALGORITHM
                      false false alice_token alice one_megabyte one_megabyte
                      st_registered 0 eq_refl one_megabyte_ascii)
               one_megabyte_len eq_refl eq_refl).
    reflexivity.
  - assert (Hbig : 1048576 < py_len encoded) by (rewrite Hlen; reflexivity).
    exact (proj1 (proj2 (add_post_size_limit
                           Sample.sign Sample.SECRET_KEY Sample.ALGORITHM
                           false false alice_token alice two_byte_megabyte
                           encoded st_registered 0 eq_refl Henc))
             Hbig Hchars).
Defined.

(** *** C4 *)

(** A token signed with another key and not expired, and a token signed
    with the process-wide key and expired, are refused with one and the
    same error, 401 "Token expired". *)
Lemma wrong_key_reported_as_expired :
  let forged :=
    Jws "HS256" alice_claims (Sample.sign "HS256" Sample.OTHER_KEY alice_claims)
  in
  Sample.sign "HS256" Sample.OTHER_KEY alice_claims
  ≠ Sample.sign "HS256" Sample.SECRET_KEY alice_claims
  ∧ s_current_user forged 0
    = Raise (HTTPException 401 "Token expired")
  ∧ s_current_user alice_token 1201000000
    = Raise (HTTPException 401 "Token expired")
  ∧ s_current_user forged 0 = s_current_user alice_token 1201000000.
Proof. cbv zeta. split_and!; [discriminate|reflexivity..]. Qed.

Lemma validation_failures_witness :
  let forged :=
    Jws "HS256" alice_claims (Sample.sign "HS256" Sample.OTHER_KEY alice_claims)
  in
  Sample.sign "HS256" Sample.OTHER_KEY alice_claims
  ≠ Sample.sign "HS256" Sample.SECRET_KEY alice_claims
  ∧ s_current_user forged 0 = Raise TOKEN_EXPIRED.
Proof.
  cbv zeta.
  assert (Hdiff : Sample.sign Sample.ALGORITHM Sample.OTHER_KEY alice_claims
                  ≠ Sample.sign Sample.ALGORITHM Sample.SECRET_KEY
                      alice_claims) by discriminate.
  split; [exact Hdiff|].
  destruct (validation_failures Sample.sign Sample.SECRET_KEY
              Sample.ALGORITHM
              (Jws Sample.ALGORITHM alice_claims
                 (Sample.sign Sample.ALGORITHM Sample.OTHER_KEY alice_claims))
              0) as (_ & _ & _ & Hkey & _).
  exact (Hkey Sample.OTHER_KEY alice_claims eq_refl Hdiff).
Defined.

(** *** C5 *)

Lemma delete_post_only_by_owner_witness :
  dict_truthy bob = true
  ∧ (∃ p, p ∈ posts (db st_posted) ∧ post_id p = 1)
  ∧ (∀ p, p ∈ posts (db st_posted) → post_id p = 1 →
          post_user_id p ≠ ud_id bob)
  ∧ delete_post 1 st_posted bob
    = (Raise (HTTPException HTTP_404_NOT_FOUND "Post not found"), st_posted)
  ∧ delete_post 7 st_posted bob = delete_post 1 st_posted bob.
Proof.
  assert (Hex : ∃ p, p ∈ posts (db st_posted) ∧ post_id p = 1).
  { exists hello_row. split; [left|reflexivity]. }
  assert (Hother : ∀ p, p ∈ posts (db st_posted) → post_id p = 1 →
                        post_user_id p ≠ ud_id bob).
  { intros p Hp _. apply list_elem_of_singleton in Hp as ->. discriminate. }
  assert (Habsent : ∀ p, p ∈ posts (db st_posted) → post_id p ≠ 7).
  { intros p Hp. apply list_elem_of_singleton in Hp as ->. discriminate. }
  destruct (delete_post_only_by_owner 1 st_posted bob eq_refl)
    as (_ & Hnot_owned & _).
  destruct (delete_post_only_by_owner 7 st_posted bob eq_refl)
    as (Hmissing & _ & _).
  split_and!; [reflexivity|exact Hex|exact Hother|exact (Hnot_owned Hex Hother)|].
  rewrite (Hnot_owned Hex Hother), (Hmissing Habsent). reflexivity.
Defined.

(** *** C6 *)

Lemma register_existing_email_conflict_witness :
  (∃ u, u ∈ users (db st_registered) ∧ user_email u = "a@x.com")
  ∧ s_register {| reg_email := "a@x.com"; reg_password := "other" |}
      st_registered "t" 5000000
    = (Raise (HTTPException HTTP_400_BAD_REQUEST "User already exists"),
       st_registered).
Proof.
  assert (Hex : ∃ u, u ∈ users (db st_registered)
                     ∧ user_email u = "a@x.com").
  { exists alice_row. split; [left|reflexivity]. }
  split; [exact Hex|].
  exact (proj1 (proj1 (register_existing_email_conflict
                         Sample.sign Sample.SECRET_KEY Sample.ALGORITHM None
                         Sample.pwd_hash false)
                  {| reg_email := "a@x.com"; reg_password := "other" |}
                  st_registered "t" 5000000 Hex)).
Defined.

(** *** C7 *)

(** A password with a NUL character. *)
Abbreviation nul_password := (String "a"%char (String Ascii.zero EmptyString)).

Lemma login_unknown_email_or_bad_password_witness :
  (∀ u, u ∈ users (db st_registered) → user_email u ≠ "z@x.com")
  ∧ (∃ u, u ∈ users (db st_registered) ∧ user_email u = "a@x.com")
  ∧ (∀ u, u ∈ users (db st_registered) → user_email u = "a@x.com" →
          verify_password Sample.pwd_verify nul_password
            (user_password_hash u) = Raise PasswordValueError)
  ∧ s_login {| login_email := "z@x.com"; login_password := nul_password |}
      st_registered 0
    = (Raise (HTTPException HTTP_404_NOT_FOUND "User not found"),
       st_registered)
  ∧ s_login {| login_email := "a@x.com"; login_password := nul_password |}
      st_registered 0
    = (Raise PasswordValueError, st_registered)
  ∧ response_status HTTP_200_OK
      (s_login {| login_email := "a@x.com"; login_password := nul_password |}
         st_registered 0).1 = 500
  ∧ (s_login {| login_email := "a@x.com"; login_password := nul_password |}
       st_registered 0).1
    ≠ (s_login {| login_email := "z@x.com"; login_password := nul_password |}
         st_registered 0).1.
Proof.
  assert (Habsent : ∀ u, u ∈ users (db st_registered) →
                         user_email u ≠ "z@x.com").
  { intros u Hu. apply list_elem_of_singleton in Hu as ->. discriminate. }
  assert (Hex : ∃ u, u ∈ users (db st_registered)
                     ∧ user_email u = "a@x.com").
  { exists alice_row. split; [left|reflexivity]. }
  assert (Hraise : ∀ u, u ∈ users (db st_registered) →
            user_email u = "a@x.com" →
            verify_password Sample.pwd_verify nul_password
              (user_password_hash u) = Raise PasswordValueError).
  { intros u Hu _. apply list_elem_of_singleton in Hu as ->. reflexivity. }
  destruct (login_unknown_email_or_bad_password
              Sample.sign Sample.SECRET_KEY Sample.ALGORITHM None
              Sample.pwd_verify "z@x.com" nul_password st_registered 0
              "a@x.com" nul_password st_registered 0 Habsent Hex)
    as (_ & Hunknown & _ & Hknown).
  destruct (Hknown PasswordValueError Hraise) as (_ & Hlogin & Hdiffer).
  split_and!;
    [exact Habsent|exact Hex|exact Hraise|exact Hunknown|exact Hlogin| |].
  - rewrite Hlogin. reflexivity.
  - apply Hdiffer. discriminate.
Defined.

(** *** C8 *)

Lemma cache_entry_lifecycle_witness :
  dict_truthy alice = true
  ∧ cached_truthy (redis_get (cache st_posted) "post_user1" 10000000) = false
  ∧ redis_get (cache (s_get_posts st_posted alice 10000000).2)
      "post_user1" 14999999
    = Some (Sample.dumps [(1, hello)])
  ∧ redis_get (cache (s_get_posts st_posted alice 10000000).2)
      "post_user1" 15000000
    = None.
Proof.
  destruct (cache_entry_lifecycle string Sample.dumps Sample.loads
              false false) as (Hmiss & _).
  destruct (Hmiss st_posted alice 1 10000000 eq_refl eq_refl eq_refl)
    as [_ Hread].
  split_and!; [reflexivity|reflexivity|..].
  - exact (Hread 14999999).
  - exact (Hread 15000000).
Defined.

(** *** C9 *)


(** *** C10 *)

Lemma post_text_column_bound_witness :
  dict_truthy alice = true
  ∧ encode_utf8 (repeat_pow2 8 [97%N]) = Ok (repeat_pow2 8 [97%N])
  ∧ py_len (repeat_pow2 8 [97%N]) = 256
  ∧ add_post true false {| text := repeat_pow2 8 [97%N] |} st_registered alice
    = (Raise DataError, st_registered)
  ∧ is_Ok (add_post false false {| text := repeat_pow2 8 [97%N] |}
             st_registered alice).1 = true.
Proof.
  assert (Henc : encode_utf8 (repeat_pow2 8 [97%N])
                 = Ok (repeat_pow2 8 [97%N])) by reflexivity.
  split_and!; [reflexivity|exact Henc|reflexivity|..].
  - destruct (post_text_column_bound
                Sample.sign Sample.SECRET_KEY Sample.ALGORITHM None
                Sample.pwd_hash Sample.pwd_verify string Sample.dumps
                Sample.loads true false) as (_ & _ & _ & Hadd).
    destruct (Hadd {| text := repeat_pow2 8 [97%N] |} st_registered alice
                (repeat_pow2 8 [97%N]) eq_refl Henc)
      as [_ Hfail]; [by vm_compute..|].
    exact (Hfail eq_refl).
  - destruct (post_text_column_bound
                Sample.sign Sample.SECRET_KEY Sample.ALGORITHM None
                Sample.pwd_hash Sample.pwd_verify string Sample.dumps
                Sample.loads false false) as (_ & _ & _ & Hadd).
    destruct (Hadd {| text := repeat_pow2 8 [97%N] |} st_registered alice
                (repeat_pow2 8 [97%N]) eq_refl Henc)
      as [Hiff _]; [by vm_compute..|].
    exact (proj2 Hiff eq_refl).
Defined.

(** ** Further properties at concrete requests *)

(** The state after the post of [st_posted] has been deleted again. *)
Abbreviation st_deleted := (delete_post 1 st_posted alice).2.
(** A dictionary without keys. *)
Abbreviation nobody := {| ud_email := None; ud_id := None |}.

Lemma st_registered_reachable : s_reachable st_registered.
Proof. repeat constructor. Defined.

Lemma st_posted_reachable : s_reachable st_posted.
Proof. repeat constructor. Defined.

Lemma reachable_keys_unique_witness :
  s_reachable st_listed
  ∧ NoDup (user_email <$> users (db st_listed))
  ∧ NoDup (post_id <$> posts (db st_listed)).
Proof.
  split; [exact st_listed_reachable|].
  destruct (reachable_keys_unique
              Sample.sign Sample.SECRET_KEY Sample.ALGORITHM None
              Sample.pwd_hash Sample.pwd_verify string Sample.dumps
              Sample.loads false false st_listed st_listed_reachable)
    as (Hemails & _ & Hposts).
  split; [exact Hemails|exact Hposts].
Defined.

Lemma create_access_token_outcome_witness :
  s_issue "a@x.com" 1 None 0 = Raise TypeError
  ∧ s_issue "a@x.com" 1 (Some 0) 0 = Raise TypeError
  ∧ s_issue "a@x.com" 1 (Some 1) datetime_max = Raise OverflowError.
Proof.
  split_and!.
  - exact (proj1 (create_access_token_outcome
                    Sample.sign Sample.SECRET_KEY Sample.ALGORITHM None
                    "a@x.com" 1 None 0) (or_introl eq_refl)).
  - exact (proj1 (create_access_token_outcome
                    Sample.sign Sample.SECRET_KEY Sample.ALGORITHM None
                    "a@x.com" 1 (Some 0) 0) (or_intror eq_refl)).
  - apply (proj1 (proj2 (create_access_token_outcome
                           Sample.sign Sample.SECRET_KEY Sample.ALGORITHM
                           None "a@x.com" 1 (Some 1) datetime_max))
             1 eq_refl); [discriminate|].
    intros [_ Hhi]. by vm_compute in Hhi.
Defined.

Lemma tokens_equal_iff_same_expiry_second_witness :
  s_issue "a@x.com" 1 (Some (timedelta_minutes 20)) 0 = Ok alice_token
  ∧ s_issue "a@x.com" 1 (Some (timedelta_minutes 20)) 300000
    = Ok alice_token
  ∧ timegm_utctimetuple (0 + timedelta_minutes 20)
    = timegm_utctimetuple (300000 + timedelta_minutes 20).
Proof.
  assert (H1 : s_issue "a@x.com" 1 (Some (timedelta_minutes 20)) 0
               = Ok alice_token) by reflexivity.
  assert (H2 : s_issue "a@x.com" 1 (Some (timedelta_minutes 20)) 300000
               = Ok alice_token) by reflexivity.
  split_and!; [exact H1|exact H2|].
  exact (proj1 (tokens_equal_iff_same_expiry_second
                  Sample.sign Sample.SECRET_KEY Sample.ALGORITHM None
                  "a@x.com" 1 _ _ 0 300000 _ _ H1 H2) eq_refl).
Defined.

Lemma unauthorized_guard_witness :
  dict_truthy nobody = false
  ∧ delete_post 1 st_posted nobody = (Raise UNAUTHORIZED, st_posted).
Proof.
  split; [reflexivity|].
  destruct (unauthorized_guard
              Sample.sign Sample.SECRET_KEY Sample.ALGORITHM string
              Sample.dumps Sample.loads false false)
    as (_ & _ & Hdelete & _).
  exact (Hdelete 1 st_posted nobody eq_refl).
Defined.

Lemma register_user_fresh_email_witness :
  (∀ u, u ∈ users (db empty_state) → user_email u ≠ "a@x.com")
  ∧ hash_password Sample.pwd_hash "s" "pw" = Ok "pw$s"
  ∧ datetime_min <= 0 + timedelta_minutes 20 <= datetime_max
  ∧ s_register {| reg_email := "a@x.com"; reg_password := "pw" |}
      empty_state "s" 0
    = (Ok {| access_token := alice_token; token_type := "bearer" |},
       {| db := {| users := [alice_row];
                   posts := [];
                   users_next_id := 2;
                   posts_next_id := 1 |};
          cache := ∅ |}).
Proof.
  assert (Hfresh : ∀ u, u ∈ users (db empty_state) →
                        user_email u ≠ "a@x.com").
  { intros u Hu. inversion Hu. }
  assert (Hrange : datetime_min <= 0 + timedelta_minutes 20 <= datetime_max)
    by (split; by vm_compute).
  refine (conj Hfresh (conj eq_refl (conj Hrange _))).
  exact (register_user_fresh_email
           Sample.sign Sample.SECRET_KEY Sample.ALGORITHM None
           Sample.pwd_hash false
           {| reg_email := "a@x.com"; reg_password := "pw" |}
           empty_state "s" 0 "pw$s" Hfresh eq_refl eq_refl eq_refl Hrange).
Defined.

Lemma login_after_register_witness :
  (∀ password_hash,
     Sample.pwd_hash "s" "pw" = Ok password_hash →
     Sample.pwd_verify "pw" password_hash = Ok true)
  ∧ s_register {| reg_email := "a@x.com"; reg_password := "pw" |}
      empty_state "s" 0
    = (Ok {| access_token := alice_token; token_type := "bearer" |},
       st_registered)
  ∧ is_Ok (s_login {| login_email := "a@x.com"; login_password := "pw" |}
             st_registered 60000000).1 = true.
Proof.
  assert (Hreg : s_register {| reg_email := "a@x.com"; reg_password := "pw" |}
                   empty_state "s" 0
                 = (Ok {| access_token := alice_token;
                          token_type := "bearer" |}, st_registered))
    by reflexivity.
  assert (Hrange : datetime_min <= 60000000 + timedelta_minutes 20
                   <= datetime_max) by (split; by vm_compute).
  assert (Hverify : ∀ password_hash,
            Sample.pwd_hash "s" "pw" = Ok password_hash →
            Sample.pwd_verify "pw" password_hash = Ok true).
  { intros h [= <-]. reflexivity. }
  split_and!; [exact Hverify|exact Hreg|].
  destruct (login_after_register
              Sample.sign Sample.SECRET_KEY Sample.ALGORITHM None
              Sample.pwd_hash Sample.pwd_verify false
              {| reg_email := "a@x.com"; reg_password := "pw" |}
              empty_state "s" 0 _ _ 60000000 Hverify Hreg Hrange)
    as [_ Hlogin].
  cbn [reg_email reg_password] in Hlogin. rewrite Hlogin. reflexivity.
Defined.

Lemma login_user_requires_password_witness :
  s_login {| login_email := "a@x.com"; login_password := "pw" |}
    st_registered 0
  = (Ok {| access_token := alice_token; token_type := "bearer" |},
     st_registered)
  ∧ ∃ user, user ∈ users (db st_registered)
            ∧ verify_password Sample.pwd_verify "pw"
                (user_password_hash user) = Ok true.
Proof.
  assert (Hlogin :
    s_login {| login_email := "a@x.com"; login_password := "pw" |}
      st_registered 0
    = (Ok {| access_token := alice_token; token_type := "bearer" |},
       st_registered)) by reflexivity.
  split; [exact Hlogin|].
  destruct (login_user_requires_password
              Sample.sign Sample.SECRET_KEY Sample.ALGORITHM None
              Sample.pwd_verify _ _ _ _ _ Hlogin)
    as (_ & user & Hin & _ & Hverify & _).
  exists user. split; [exact Hin|exact Hverify].
Defined.

Lemma failed_calls_change_nothing_witness :
  s_register {| reg_email := "a@x.com"; reg_password := "pw" |}
    empty_state "s" datetime_max
  = (Raise OverflowError, st_registered)
  ∧ (st_registered = empty_state
     ∨ (OverflowError = OverflowError
        ∧ ∃ password_hash,
            hash_password Sample.pwd_hash "s" "pw" = Ok password_hash
            ∧ users (db st_registered)
              = users (db empty_state)
                ++ [new_user_row (db empty_state) "a@x.com"
                      password_hash])).
Proof.
  assert (Hreg : s_register {| reg_email := "a@x.com"; reg_password := "pw" |}
                   empty_state "s" datetime_max
                 = (Raise OverflowError, st_registered)) by reflexivity.
  split; [exact Hreg|].
  destruct (failed_calls_change_nothing
              Sample.sign Sample.SECRET_KEY Sample.ALGORITHM None
              Sample.pwd_hash Sample.pwd_verify string Sample.dumps
              Sample.loads false false) as (_ & _ & _ & _ & Hregister).
  exact (Hregister {| reg_email := "a@x.com"; reg_password := "pw" |}
           empty_state "s" datetime_max OverflowError st_registered Hreg).
Defined.


Lemma delete_after_add_witness :
  s_reachable st_registered
  ∧ s_add_post {| text := hello |} st_registered alice
    = (Ok {| PostID := 1; detail := "Post created" |}, st_posted)
  ∧ ∃ st'', delete_post 1 st_posted alice = (Ok (), st'')
            ∧ posts (db st'') = posts (db st_registered).
Proof.
  assert (Hadd : s_add_post {| text := hello |} st_registered alice
                 = (Ok {| PostID := 1; detail := "Post created" |},
                    st_posted)) by reflexivity.
  split_and!; [exact st_registered_reachable|exact Hadd|].
  destruct (delete_after_add
              Sample.sign Sample.SECRET_KEY Sample.ALGORITHM None
              Sample.pwd_hash Sample.pwd_verify string Sample.dumps
              Sample.loads false false _ _ _ _ _
              st_registered_reachable Hadd)
    as (st'' & Hdel & Hposts & _).
  exists st''. split; [exact Hdel|exact Hposts].
Defined.

Lemma delete_post_removes_only_own_post_witness :
  s_reachable st_posted
  ∧ delete_post 1 st_posted alice = (Ok (), st_deleted)
  ∧ filter (λ p, post_user_id p = Some 2) (posts (db st_deleted))
    = filter (λ p, post_user_id p = Some 2) (posts (db st_posted)).
Proof.
  assert (Hdel : delete_post 1 st_posted alice = (Ok (), st_deleted))
    by reflexivity.
  split_and!; [exact st_posted_reachable|exact Hdel|].
  destruct (delete_post_removes_only_own_post
              Sample.sign Sample.SECRET_KEY Sample.ALGORITHM None
              Sample.pwd_hash Sample.pwd_verify string Sample.dumps
              Sample.loads false false _ _ _ _ st_posted_reachable Hdel)
    as (post & _ & _ & _ & _ & Hothers).
  refine (Hothers (Some 2) _). discriminate.
Defined.


Lemma add_post_text_bounds_witness :
  dict_truthy alice = true
  ∧ Exists (λ c, is_surrogate c = true) [104%N; 0xD800%N]
  ∧ s_add_post {| text := [104%N; 0xD800%N] |} st_registered alice
    = (Raise UnicodeEncodeError, st_registered)
  ∧ Forall (λ c, is_surrogate c = false) one_megabyte_and_one
  ∧ 1048576 < py_len one_megabyte_and_one
  ∧ s_add_post {| text := one_megabyte_and_one |} st_registered alice
    = (Raise TOO_LARGE, st_registered).
Proof.
  assert (Hsur : Exists (λ c, is_surrogate c = true) [104%N; 0xD800%N]).
  { right. left. reflexivity. }
  assert (Hok : Forall (λ c, is_surrogate c = false) one_megabyte_and_one).
  { constructor; [reflexivity|]. apply Forall_repeat_pow2.
    repeat constructor. }
  assert (Hlong : 1048576 < py_len one_megabyte_and_one).
  { rewrite one_megabyte_and_one_len. reflexivity. }
  destruct (add_post_text_bounds false false
              {| text := [104%N; 0xD800%N] |} st_registered alice eq_refl)
    as (Hraise & _ & _).
  destruct (add_post_text_bounds false false
              {| text := one_megabyte_and_one |} st_registered alice eq_refl)
    as (_ & Hlarge & _).
  split_and!;
    [reflexivity|exact Hsur|exact (Hraise Hsur)|exact Hok|exact Hlong
    |exact (Hlarge Hok Hlong)].
Defined.

Lemma registered_user_can_post_witness :
  register_user Sample.sign Sample.SECRET_KEY Sample.ALGORITHM None
    Sample.pwd_hash true
    {| reg_email := "a@x.com"; reg_password := "pw" |} empty_state "s" 0
  = (Ok {| access_token := alice_token; token_type := "bearer" |},
     st_registered)
  ∧ encode_utf8 hello = Ok hello
  ∧ varchar_fits true (py_len hello) = true
  ∧ ∃ st2,
      route_add_post Sample.sign Sample.SECRET_KEY Sample.ALGORITHM true true
        alice_token hello st_registered 1200999999
      = (Ok {| PostID := 1; detail := "Post created" |}, st2)
      ∧ posts (db st2) = [hello_row].
Proof.
  assert (Hreg :
    register_user Sample.sign Sample.SECRET_KEY Sample.ALGORITHM None
      Sample.pwd_hash true
      {| reg_email := "a@x.com"; reg_password := "pw" |} empty_state "s" 0
    = (Ok {| access_token := alice_token; token_type := "bearer" |},
       st_registered)) by reflexivity.
  split_and!; [exact Hreg|reflexivity|reflexivity|].
  destruct (registered_user_can_post
              Sample.sign Sample.SECRET_KEY Sample.ALGORITHM None
              Sample.pwd_hash true true _ _ _ _ _ _ hello hello 1200999999
              Hreg)
    as (st2 & Hroute & Hposts & _);
    [by vm_compute|reflexivity|by vm_compute|reflexivity|].
  exists st2. split; [exact Hroute|exact Hposts].
Defined.

Lemma get_posts_writes_only_own_key_witness :
  ud_id alice = Some 1
  ∧ 2 ≠ 1
  ∧ cache (s_get_posts st_listed alice 20000000).2 !! "post_user2"
    = cache st_listed !! "post_user2".
Proof.
  assert (Hne : 2 ≠ 1) by discriminate.
  split_and!; [reflexivity|exact Hne|].
  destruct (get_posts_writes_only_own_key string Sample.dumps Sample.loads
              st_listed alice 20000000 1 eq_refl) as [_ Hother].
  exact (proj2 (Hother 2 Hne)).
Defined.

Lemma cache_entry_serves_five_seconds_witness :
  (∀ rows, Sample.dumps rows ≠ "")
  ∧ cached_truthy (redis_get (cache st_posted) "post_user1" 10000000) = false
  ∧ (s_get_posts st_listed alice 14999999).2 = st_listed
  ∧ redis_get (cache (s_get_posts st_listed alice 15000000).2)
      "post_user1" 19999999
    = Some (Sample.dumps [(1, hello)]).
Proof.
  assert (Hnonempty : ∀ rows, Sample.dumps rows ≠ "") by discriminate.
  destruct (cache_entry_serves_five_seconds string Sample.dumps Sample.loads
              st_posted alice 1 10000000 14999999 Hnonempty
              eq_refl eq_refl eq_refl) as [Hhit _].
  destruct (cache_entry_serves_five_seconds string Sample.dumps Sample.loads
              st_posted alice 1 10000000 15000000 Hnonempty
              eq_refl eq_refl eq_refl) as [_ Hmiss].
  split_and!; [exact Hnonempty|reflexivity|..].
  - apply Hhit. reflexivity.
  - rewrite Hmiss by discriminate. reflexivity.
Defined.

Lemma authenticate_user_iff_witness :
  s_reachable st_registered
  ∧ alice_row ∈ users (db st_registered)
  ∧ authenticate_user Sample.pwd_verify "a@x.com" "pw" (db st_registered)
    = Ok (Some alice_row).
Proof.
  assert (Hin : alice_row ∈ users (db st_registered)) by left.
  split_and!; [exact st_registered_reachable|exact Hin|].
  apply (authenticate_user_iff
           Sample.sign Sample.SECRET_KEY Sample.ALGORITHM None
           Sample.pwd_hash Sample.pwd_verify string Sample.dumps
           Sample.loads false false st_registered "a@x.com" "pw" alice_row
           st_registered_reachable).
  split_and!; [exact Hin|reflexivity|reflexivity].
Defined.
